(** * Self-critical sequence training loop (train_scst.py)

    A shallow embedding of the training script: the evaluation runner
    [run_test], the per-example sampling step, the policy-gradient loss, the
    per-batch optimiser step and the per-epoch bookkeeping (metrics, best-score
    tracker, checkpoints).

    Numbers.  Python floats (BLEU scores, advantages kept in Python lists) are
    modelled as exact rationals [Q]; elements of torch tensors (logits,
    log-probabilities, the loss) as reals [R], with [torch.FloatTensor] the
    injection [Q2R].  Rounding is not modelled.

    Collaborators.  The modules [model], [utils] and [high_level_cornell], the
    optimiser and the random generators are not part of the script; the class
    [Collaborators] lists the operations the script calls on them. *)

From Stdlib Require Import String Bool Arith ZArith QArith Qminmax Reals Lra Lia List.
Import ListNotations.

Set Implicit Arguments.

Close Scope Q_scope.

(** ** Exceptions and results *)

Inductive Exn : Type :=
| ZeroDivisionError
| IndexError
| RuntimeError.

Inductive Res (A : Type) : Type :=
| Ok (a : A)
| Raise (e : Exn).

Arguments Ok {A} a.
Arguments Raise {A} e.

Definition bind {A B : Type} (r : Res A) (k : A -> Res B) : Res B :=
  match r with
  | Ok a => k a
  | Raise e => Raise e
  end.

Notation "x <- e ;; k" := (bind e (fun x => k))
  (at level 61, e at next level, right associativity).

(** [for x in l: st = body x st], stopping at the first exception. *)
Fixpoint for_each {A St : Type} (body : A -> St -> Res St) (l : list A) (st : St) : Res St :=
  match l with
  | [] => Ok st
  | x :: l' => st' <- body x st ;; for_each body l' st'
  end.

(** ** Python and numpy helpers *)

Definition Tok : Type := nat.
Definition Phrase : Type := list Tok.
(** [(phrase, [responses])] *)
Definition PhrasePair : Type := (Phrase * list Phrase)%type.

(** [x > y] on floats. *)
Definition Qgtb (x y : Q) : bool := negb (Qle_bool x y).

(** [range(n)] for a Python int [n]: empty when [n <= 0]. *)
Definition range (n : Z) : list nat := seq 0 (Z.to_nat n).

(** [enumerate(l)] *)
Definition enumerate {A : Type} (l : list A) : list (nat * A) :=
  combine (seq 0 (length l)) l.

(** [[indices[1:] for indices in refs]] *)
Definition strip_first (refs : list Phrase) : list Phrase := map (@tl Tok) refs.

Definition Qsum (l : list Q) : Q := fold_left Qplus l 0%Q.

(** [np.mean(l)]; [None] stands for the nan numpy returns on an empty list. *)
Definition np_mean (l : list Q) : option Q :=
  match l with
  | [] => None
  | _ => Some (Qsum l / inject_Z (Z.of_nat (length l)))%Q
  end.

(** [a / b] with an int divisor. *)
Definition py_div (a : Q) (b : nat) : Res Q :=
  if Nat.eqb b 0 then Raise ZeroDivisionError
  else Ok (a / inject_Z (Z.of_nat b))%Q.

(** ** Tensors *)

Definition Row : Type := list R.
(** A 2-D tensor, one row per decoding step, one column per vocabulary entry. *)
Definition Logits : Type := list Row.

(** A 0-D float tensor; [NaN] arises as the mean of an empty tensor. *)
Inductive Scalar : Type :=
| Real (x : R)
| NaN.

Definition Rsum (l : list R) : R := fold_right Rplus 0%R l.

Definition width_ok (w : option nat) (m : Logits) : bool :=
  match w with
  | None => true
  | Some n => forallb (fun r => Nat.eqb (length r) n) m
  end.

Definition first_width (ts : list Logits) : option nat :=
  match concat ts with
  | [] => None
  | r :: _ => Some (length r)
  end.

(** [torch.cat(ts)] along dimension 0: the rows of all tensors in order.  An
    empty list of tensors, or tensors of different widths, cannot be
    concatenated. *)
Definition torch_cat (ts : list Logits) : Res Logits :=
  match ts with
  | [] => Raise RuntimeError
  | _ =>
      if forallb (width_ok (first_width ts)) ts then Ok (concat ts)
      else Raise RuntimeError
  end.

(** [torch.FloatTensor(l)] *)
Definition FloatTensor (l : list Q) : list R := map Q2R l.

Definition log_softmax_row (row : Row) : Row :=
  let lse := ln (Rsum (map exp row)) in
  map (fun x => (x - lse)%R) row.

(** [F.log_softmax(m, dim=1)]: normalises every row on its own. *)
Definition log_softmax (m : Logits) : Logits := map log_softmax_row m.

(** [m[rows, cols]] with two index lists: the entries [m[rows[i]][cols[i]]]. *)
Fixpoint index_pairs (m : Logits) (rows cols : list nat) : Res (list R) :=
  match rows, cols with
  | [], [] => Ok []
  | i :: rows', j :: cols' =>
      match nth_error m i with
      | None => Raise IndexError
      | Some row =>
          match nth_error row j with
          | None => Raise IndexError
          | Some x => rest <- index_pairs m rows' cols' ;; Ok (x :: rest)
          end
      end
  | _, _ => Raise IndexError
  end.

(** [a * b] on 1-D tensors, a one-element tensor being broadcast. *)
Definition tensor_mul (a b : list R) : Res (list R) :=
  if Nat.eqb (length a) (length b) then Ok (map (fun p => (fst p * snd p)%R) (combine a b))
  else match a, b with
       | [x], _ => Ok (map (fun y => (x * y)%R) b)
       | _, [y] => Ok (map (fun x => (x * y)%R) a)
       | _, _ => Raise RuntimeError
       end.

(** [t.mean()] *)
Definition tensor_mean (t : list R) : Scalar :=
  match t with
  | [] => NaN
  | _ => Real (Rsum t / INR (length t))
  end.

Definition scalar_neg (s : Scalar) : Scalar :=
  match s with
  | Real x => Real (- x)
  | NaN => NaN
  end.

(** Lines 164-169: the policy-gradient loss of one batch. *)
Definition loss_policy (net_policies : list Logits) (net_actions : list Tok)
    (net_advantages : list Q) : Res Scalar :=
  policies_v <- torch_cat net_policies ;;
  let actions_t := net_actions in
  let adv_v := FloatTensor net_advantages in
  let log_prob_v := log_softmax policies_v in
  picked <- index_pairs log_prob_v (seq 0 (length net_actions)) actions_t ;;
  log_prob_actions_v <- tensor_mul adv_v picked ;;
  Ok (scalar_neg (tensor_mean log_prob_actions_v)).

(** ** Sampled trajectories *)

(** A sampled trajectory: the per-step output distributions, the generated
    tokens, its reward and the greedy reward of its example. *)
Record Trajectory : Type := mkTrajectory {
  t_logits : Logits;
  t_tokens : list Tok;
  t_reward : Q;
  t_baseline : Q
}.

Definition advantage (t : Trajectory) : Q := (t_reward t - t_baseline t)%Q.

(** One advantage per generated token. *)
Definition advantages (t : Trajectory) : list Q :=
  repeat (advantage t) (length (t_tokens t)).

(** The distributions are aligned one to one with the tokens, over a
    vocabulary of [V] entries. *)
Definition aligned (V : nat) (t : Trajectory) : bool :=
  Nat.eqb (length (t_logits t)) (length (t_tokens t))
  && forallb (fun row => Nat.eqb (length row) V) (t_logits t)
  && forallb (fun tok => Nat.ltb tok V) (t_tokens t).

(** Log-probability of token [tok] under the distribution with logits [row]. *)
Definition token_log_prob (row : Row) (tok : Tok) : R :=
  nth tok (log_softmax_row row) 0%R.

(** Advantage times log-probability, for every generated token of [t] paired
    with the distribution of its own step. *)
Definition weighted_log_probs (t : Trajectory) : list R :=
  map (fun p => (Q2R (advantage t) * token_log_prob (fst p) (snd p))%R)
      (combine (t_logits t) (t_tokens t)).

(** The loss in the spec's words: the negative mean of advantage times
    log-probability over every generated token of every trajectory. *)
Definition mean_loss (trajs : list Trajectory) : Scalar :=
  let terms := concat (map weighted_log_probs trajs) in
  match terms with
  | [] => NaN
  | _ => Real (- (Rsum terms / INR (length terms)))
  end.

(** ** Reward scorer *)

Module Utils.

Section Scorer.

(** Modelled from the spec: the pairwise similarity behind [utils.py]'s scorer
    is absent from the sources; the spec only says that it is a BLEU-like
    score bounded in [0, 1]. *)
Variable similarity : list Tok -> list Tok -> Q.

Definition min_score : Q := 0%Q.
Definition max_score : Q := 1%Q.

(** The running maximum of a [max(...)] over an iterable: a later element
    replaces the best one only when strictly greater. *)
Definition keep_best (best x : Q) : Q := if Qgtb x best then x else best.

(** Modelled from the spec: [utils.calc_bleu_many] is absent from the sources.
    Section 4.1 of the spec: the score is the maximum pairwise similarity
    between the generated sequence and each reference (best-of-N), and an
    empty generated sequence gets the minimum score instead of failing. *)
Definition calc_bleu_many (cand_seq : list Tok) (ref_sequences : list (list Tok)) : Q :=
  match cand_seq with
  | [] => min_score
  | _ => fold_left keep_best (map (similarity cand_seq) ref_sequences) min_score
  end.

End Scorer.

End Utils.

(** ** Collaborators *)

(** What the script calls on the sequence model ([model.py]), the scorer
    ([utils.py]), the corpus module ([high_level_cornell.py]), the random
    generators and the optimiser.  Forward passes ([encode], the two decoders)
    read the parameters and return a value; only [adam_step] yields new
    parameters.  The stochastic decoder threads the generator state. *)
Class Collaborators : Type := {
  Params : Type;
  OptState : Type;
  Grads : Type;
  Rng : Type;
  PackedSeq : Type;
  Embedding : Type;
  Encoded : Type;
  (* model.py *)
  pack_input : Phrase -> Params -> PackedSeq;
  pack_batch_no_out :
    list PhrasePair -> Params -> PackedSeq * list Phrase * list (list Phrase);
  emb : Params -> Tok -> Embedding;
  first_item : PackedSeq -> Embedding;
  encode : Params -> PackedSeq -> Encoded;
  get_encoded_item : Encoded -> nat -> Encoded;
  decode_chain_argmax :
    Params -> Encoded -> Embedding -> nat -> Tok -> Logits * list Tok;
  decode_chain_sampling :
    Params -> Encoded -> Embedding -> nat -> Tok -> Rng -> Logits * list Tok * Rng;
  (* utils.py *)
  calc_bleu_many : list Tok -> list (list Tok) -> Q;
  (* high_level_cornell.py *)
  MAX_TOKENS : nat;
  iterate_batches : list PhrasePair -> nat -> list (list PhrasePair);
  (* random.shuffle *)
  shuffle : list PhrasePair -> Rng -> list PhrasePair * Rng;
  (* torch autograd and optim.Adam *)
  zero_grad : Grads -> Grads;
  backward : Params -> list Logits -> list Tok -> list Q -> Grads -> Grads;
  adam_step : OptState -> Params -> Grads -> OptState * Params
}.

Definition BATCH_SIZE : nat := 16.
Definition MAX_EPOCHES : nat := 5000.
(** The literal [0.99] of the skip test. *)
Definition SKIP_BLEU : Q := (99 # 100)%Q.

(** The command-line arguments the loop reads. *)
Record Args : Type := mkArgs {
  samples : Z;
  disable_skip : bool
}.

Inductive LogMsg : Type :=
| MsgInput (inp : Phrase)
| MsgRefer (refs : list Phrase)
| MsgArgmax (actions : list Tok) (bleu : Q)
| MsgSample (actions : list Tok) (bleu : Q)
| MsgEpoch (epoch : nat) (bleu_test : Q)
| MsgBest (bleu_test : Q).

Inductive TrackVal : Type :=
| TVec (v : list R)
| TScalar (x : Scalar).

Inductive SaveFile : Type :=
| BleuFile (bleu_test : Q) (epoch : nat)
| EpochFile (epoch : nat) (bleu : option Q) (bleu_test : Q).

Section Trainer.

Context {C : Collaborators}.

(** Calls on the logger, the summary writer, the mean tracker and
    [torch.save], in program order. *)
Inductive Event : Type :=
| Info (m : LogMsg)
| AddScalar (tag : string) (value : option Q) (global_step : nat)
| Track (name : string) (value : TrackVal) (iter_index : nat)
| Save (state_dict : Params) (file : SaveFile).

(** The variables of the training loop (lines 93-192).  [recorded] is a history
    variable, not one of the script's: the sampled trajectories appended to the
    accumulators since the start of the current batch. *)
Record Vars : Type := mkVars {
  net : Params;
  optimiser : OptState;
  grads : Grads;
  rng : Rng;
  train_data : list PhrasePair;
  batch_idx : nat;
  best_bleu : option Q;
  dial_shown : bool;
  total_samples : nat;
  skipped_samples : nat;
  bleus_argmax : list Q;
  bleus_sample : list Q;
  net_policies : list Logits;
  net_actions : list Tok;
  net_advantages : list Q;
  recorded : list Trajectory;
  out : list Event
}.

Definition set_net (x : Params) (s : Vars) : Vars :=
  mkVars x (optimiser s) (grads s) (rng s) (train_data s) (batch_idx s) (best_bleu s)
    (dial_shown s) (total_samples s) (skipped_samples s) (bleus_argmax s)
    (bleus_sample s) (net_policies s) (net_actions s) (net_advantages s) (recorded s)
    (out s).

Definition set_optimiser (x : OptState) (s : Vars) : Vars :=
  mkVars (net s) x (grads s) (rng s) (train_data s) (batch_idx s) (best_bleu s)
    (dial_shown s) (total_samples s) (skipped_samples s) (bleus_argmax s)
    (bleus_sample s) (net_policies s) (net_actions s) (net_advantages s) (recorded s)
    (out s).

Definition set_grads (x : Grads) (s : Vars) : Vars :=
  mkVars (net s) (optimiser s) x (rng s) (train_data s) (batch_idx s) (best_bleu s)
    (dial_shown s) (total_samples s) (skipped_samples s) (bleus_argmax s)
    (bleus_sample s) (net_policies s) (net_actions s) (net_advantages s) (recorded s)
    (out s).

Definition set_rng (x : Rng) (s : Vars) : Vars :=
  mkVars (net s) (optimiser s) (grads s) x (train_data s) (batch_idx s) (best_bleu s)
    (dial_shown s) (total_samples s) (skipped_samples s) (bleus_argmax s)
    (bleus_sample s) (net_policies s) (net_actions s) (net_advantages s) (recorded s)
    (out s).

Definition set_train_data (x : list PhrasePair) (s : Vars) : Vars :=
  mkVars (net s) (optimiser s) (grads s) (rng s) x (batch_idx s) (best_bleu s)
    (dial_shown s) (total_samples s) (skipped_samples s) (bleus_argmax s)
    (bleus_sample s) (net_policies s) (net_actions s) (net_advantages s) (recorded s)
    (out s).

Definition set_batch_idx (x : nat) (s : Vars) : Vars :=
  mkVars (net s) (optimiser s) (grads s) (rng s) (train_data s) x (best_bleu s)
    (dial_shown s) (total_samples s) (skipped_samples s) (bleus_argmax s)
    (bleus_sample s) (net_policies s) (net_actions s) (net_advantages s) (recorded s)
    (out s).

Definition set_best_bleu (x : option Q) (s : Vars) : Vars :=
  mkVars (net s) (optimiser s) (grads s) (rng s) (train_data s) (batch_idx s) x
    (dial_shown s) (total_samples s) (skipped_samples s) (bleus_argmax s)
    (bleus_sample s) (net_policies s) (net_actions s) (net_advantages s) (recorded s)
    (out s).

Definition set_dial_shown (x : bool) (s : Vars) : Vars :=
  mkVars (net s) (optimiser s) (grads s) (rng s) (train_data s) (batch_idx s)
    (best_bleu s) x (total_samples s) (skipped_samples s) (bleus_argmax s)
    (bleus_sample s) (net_policies s) (net_actions s) (net_advantages s) (recorded s)
    (out s).

Definition set_total_samples (x : nat) (s : Vars) : Vars :=
  mkVars (net s) (optimiser s) (grads s) (rng s) (train_data s) (batch_idx s)
    (best_bleu s) (dial_shown s) x (skipped_samples s) (bleus_argmax s) (bleus_sample s)
    (net_policies s) (net_actions s) (net_advantages s) (recorded s) (out s).

Definition set_skipped_samples (x : nat) (s : Vars) : Vars :=
  mkVars (net s) (optimiser s) (grads s) (rng s) (train_data s) (batch_idx s)
    (best_bleu s) (dial_shown s) (total_samples s) x (bleus_argmax s) (bleus_sample s)
    (net_policies s) (net_actions s) (net_advantages s) (recorded s) (out s).

Definition set_bleus_argmax (x : list Q) (s : Vars) : Vars :=
  mkVars (net s) (optimiser s) (grads s) (rng s) (train_data s) (batch_idx s)
    (best_bleu s) (dial_shown s) (total_samples s) (skipped_samples s) x
    (bleus_sample s) (net_policies s) (net_actions s) (net_advantages s) (recorded s)
    (out s).

Definition set_bleus_sample (x : list Q) (s : Vars) : Vars :=
  mkVars (net s) (optimiser s) (grads s) (rng s) (train_data s) (batch_idx s)
    (best_bleu s) (dial_shown s) (total_samples s) (skipped_samples s) (bleus_argmax s)
    x (net_policies s) (net_actions s) (net_advantages s) (recorded s) (out s).

Definition set_net_policies (x : list Logits) (s : Vars) : Vars :=
  mkVars (net s) (optimiser s) (grads s) (rng s) (train_data s) (batch_idx s)
    (best_bleu s) (dial_shown s) (total_samples s) (skipped_samples s) (bleus_argmax s)
    (bleus_sample s) x (net_actions s) (net_advantages s) (recorded s) (out s).

Definition set_net_actions (x : list Tok) (s : Vars) : Vars :=
  mkVars (net s) (optimiser s) (grads s) (rng s) (train_data s) (batch_idx s)
    (best_bleu s) (dial_shown s) (total_samples s) (skipped_samples s) (bleus_argmax s)
    (bleus_sample s) (net_policies s) x (net_advantages s) (recorded s) (out s).

Definition set_net_advantages (x : list Q) (s : Vars) : Vars :=
  mkVars (net s) (optimiser s) (grads s) (rng s) (train_data s) (batch_idx s)
    (best_bleu s) (dial_shown s) (total_samples s) (skipped_samples s) (bleus_argmax s)
    (bleus_sample s) (net_policies s) (net_actions s) x (recorded s) (out s).

Definition set_recorded (x : list Trajectory) (s : Vars) : Vars :=
  mkVars (net s) (optimiser s) (grads s) (rng s) (train_data s) (batch_idx s)
    (best_bleu s) (dial_shown s) (total_samples s) (skipped_samples s) (bleus_argmax s)
    (bleus_sample s) (net_policies s) (net_actions s) (net_advantages s) x (out s).

(** One call on an external sink, appended to the record of calls. *)
Definition emit (e : Event) (s : Vars) : Vars :=
  mkVars (net s) (optimiser s) (grads s) (rng s) (train_data s) (batch_idx s)
    (best_bleu s) (dial_shown s) (total_samples s) (skipped_samples s) (bleus_argmax s)
    (bleus_sample s) (net_policies s) (net_actions s) (net_advantages s) (recorded s)
    (out s ++ [e]).

(** Lines 27-46. *)
Definition run_test (test_data : list PhrasePair) (net : Params) (end_token : Tok) : Res Q :=
  let '(bleu_sum, bleu_count) :=
    fold_left
      (fun (acc : Q * nat) (pair : PhrasePair) =>
         let '(bleu_sum, bleu_count) := acc in
         let '(p1, p2) := pair in
         let input_seq := pack_input p1 net in
         let enc := encode net input_seq in
         let '(_, tokens) :=
           decode_chain_argmax net enc (first_item input_seq) MAX_TOKENS end_token in
         let ref_indices := strip_first p2 in
         ((bleu_sum + calc_bleu_many tokens ref_indices)%Q, bleu_count + 1))
      test_data (0%Q, 0) in
  py_div bleu_sum bleu_count.

(** Lines 145-158: one stochastic sample for the current example.  The
    assignment to [recorded] is the only one without a line in the script. *)
Definition sample_step (end_token : Tok) (item_enc : Encoded) (beg_embedding : Embedding)
    (ref_indices : list Phrase) (argmax_bleu : Q) (st : Vars) : Vars :=
  let '(r_sample, actions, g) :=
    decode_chain_sampling (net st) item_enc beg_embedding MAX_TOKENS end_token (rng st) in
  let st := set_rng g st in
  let sample_bleu := calc_bleu_many actions ref_indices in
  let st := if negb (dial_shown st) then emit (Info (MsgSample actions sample_bleu)) st else st in
  let st :=
    set_recorded (recorded st ++ [mkTrajectory r_sample actions sample_bleu argmax_bleu]) st in
  let st := set_net_policies (net_policies st ++ [r_sample]) st in
  let st := set_net_actions (net_actions st ++ actions) st in
  let st :=
    set_net_advantages
      (net_advantages st ++ repeat (sample_bleu - argmax_bleu)%Q (length actions)) st in
  set_bleus_sample (bleus_sample st ++ [sample_bleu]) st.

(** Lines 118-159: the body of the loop over the examples of a batch. *)
Definition example_step (args : Args) (end_token : Tok) (enc : Encoded)
    (beg_embedding : Embedding) (output_batch : list (list Phrase))
    (item : nat * Phrase) (st : Vars) : Res Vars :=
  let '(idx, inp_idx) := item in
  let st := set_total_samples (total_samples st + 1) st in
  match nth_error output_batch idx with
  | None => Raise IndexError
  | Some refs =>
      let ref_indices := strip_first refs in
      let item_enc := get_encoded_item enc idx in
      let '(r_argmax, actions) :=
        decode_chain_argmax (net st) item_enc beg_embedding MAX_TOKENS end_token in
      let argmax_bleu := calc_bleu_many actions ref_indices in
      let st := set_bleus_argmax (bleus_argmax st ++ [argmax_bleu]) st in
      if negb (disable_skip args) && Qgtb argmax_bleu SKIP_BLEU then
        Ok (set_skipped_samples (skipped_samples st + 1) st)
      else
        let st :=
          if negb (dial_shown st) then
            emit (Info (MsgArgmax actions argmax_bleu))
              (emit (Info (MsgRefer ref_indices)) (emit (Info (MsgInput inp_idx)) st))
          else st in
        let st :=
          fold_left
            (fun st _ => sample_step end_token item_enc beg_embedding ref_indices argmax_bleu st)
            (range (samples args)) st in
        Ok (set_dial_shown true st)
  end.

(** Lines 108-159: a batch up to the end of the loop over its examples. *)
Definition batch_collect (args : Args) (end_token beg_token : Tok)
    (batch : list PhrasePair) (st : Vars) : Res Vars :=
  let st := set_batch_idx (batch_idx st + 1) st in
  let st := set_grads (zero_grad (grads st)) st in
  let '(input_seq, input_batch, output_batch) := pack_batch_no_out batch (net st) in
  let enc := encode (net st) input_seq in
  let st := set_recorded [] st in
  let st := set_net_policies [] st in
  let st := set_net_actions [] st in
  let st := set_net_advantages [] st in
  let beg_embedding := emb (net st) beg_token in
  for_each (example_step args end_token enc beg_embedding output_batch)
    (enumerate input_batch) st.

(** Lines 161-177: the guard on an empty batch, the loss and the update. *)
Definition batch_update (st : Vars) : Res Vars :=
  match net_policies st with
  | [] => Ok st
  | _ =>
      loss_policy_v <- loss_policy (net_policies st) (net_actions st) (net_advantages st) ;;
      let adv_v := FloatTensor (net_advantages st) in
      let loss_v := loss_policy_v in
      let st :=
        set_grads
          (backward (net st) (net_policies st) (net_actions st) (net_advantages st) (grads st))
          st in
      let '(o, p) := adam_step (optimiser st) (net st) (grads st) in
      let st := set_net p (set_optimiser o st) in
      let st := emit (Track "advantage" (TVec adv_v) (batch_idx st)) st in
      let st := emit (Track "loss_policy" (TScalar loss_policy_v) (batch_idx st)) st in
      let st := emit (Track "loss_total" (TScalar loss_v) (batch_idx st)) st in
      Ok st
  end.

(** Lines 108-177: the body of the loop over the batches of an epoch. *)
Definition batch_step (args : Args) (end_token beg_token : Tok)
    (batch : list PhrasePair) (st : Vars) : Res Vars :=
  st <- batch_collect args end_token beg_token batch st ;;
  batch_update st.

(** Lines 98-105: the start of an epoch. *)
Definition epoch_begin (st : Vars) : Vars :=
  let '(data, g) := shuffle (train_data st) (rng st) in
  let st := set_rng g (set_train_data data st) in
  let st := set_dial_shown false st in
  let st := set_total_samples 0 st in
  let st := set_skipped_samples 0 st in
  let st := set_bleus_argmax [] st in
  set_bleus_sample [] st.

(** [best_bleu is None or best_bleu < bleu_test] *)
Definition improves (best_bleu : option Q) (bleu_test : Q) : bool :=
  match best_bleu with
  | None => true
  | Some b => Qgtb bleu_test b
  end.

(** Lines 187-190. *)
Definition update_best (epoch : nat) (bleu_test : Q) (st : Vars) : Vars :=
  if improves (best_bleu st) bleu_test then
    let st := set_best_bleu (Some bleu_test) st in
    let st := emit (Info (MsgBest bleu_test)) st in
    emit (Save (net st) (BleuFile bleu_test epoch)) st
  else st.

(** Lines 179-192: evaluation, metrics and checkpoints at the end of an epoch. *)
Definition epoch_end (end_token : Tok) (test_data : list PhrasePair) (epoch : nat)
    (st : Vars) : Res Vars :=
  bleu_test <- run_test test_data (net st) end_token ;;
  let bleu := np_mean (bleus_argmax st) in
  let st := emit (AddScalar "bleu_test" (Some bleu_test) (batch_idx st)) st in
  let st := emit (AddScalar "bleu_argmax" bleu (batch_idx st)) st in
  let st := emit (AddScalar "bleu_sample" (np_mean (bleus_sample st)) (batch_idx st)) st in
  ratio <- py_div (inject_Z (Z.of_nat (skipped_samples st))) (total_samples st) ;;
  let st := emit (AddScalar "skipped_samples" (Some ratio) (batch_idx st)) st in
  let st := emit (AddScalar "epoch" (Some (inject_Z (Z.of_nat (batch_idx st)))) epoch) st in
  let st := emit (Info (MsgEpoch epoch bleu_test)) st in
  let st := update_best epoch bleu_test st in
  let st :=
    if Nat.eqb (epoch mod 10) 0 then emit (Save (net st) (EpochFile epoch bleu bleu_test)) st
    else st in
  Ok st.

(** Lines 97-192: one iteration of the loop over the epochs. *)
Definition epoch_step (args : Args) (end_token beg_token : Tok)
    (test_data : list PhrasePair) (epoch : nat) (st : Vars) : Res Vars :=
  let st := epoch_begin st in
  st <- for_each (batch_step args end_token beg_token)
         (iterate_batches (train_data st) BATCH_SIZE) st ;;
  epoch_end end_token test_data epoch st.

(** Lines 94-96: the state the loop over the epochs starts from.  The
    variables assigned at the start of every epoch or batch hold no value
    yet; they are given their empty values here. *)
Definition init_vars (net0 : Params) (opt0 : OptState) (grads0 : Grads) (rng0 : Rng)
    (train_data0 : list PhrasePair) : Vars :=
  mkVars net0 opt0 grads0 rng0 train_data0 0 None false 0 0 [] [] [] [] [] [] [].

(** Lines 97-192 for the first [n] epochs. *)
Definition run_epochs (args : Args) (end_token beg_token : Tok)
    (test_data : list PhrasePair) (n : nat) (st : Vars) : Res Vars :=
  for_each (epoch_step args end_token beg_token test_data) (seq 0 n) st.

Definition train (args : Args) (end_token beg_token : Tok)
    (test_data : list PhrasePair) (st : Vars) : Res Vars :=
  run_epochs args end_token beg_token test_data MAX_EPOCHES st.

End Trainer.

(** ** A small concrete model

    A three-word vocabulary, a greedy decoder that echoes its input phrase and
    a sampler that draws two tokens from a counter.  It instantiates
    [Collaborators] so that the loop can be run on concrete data. *)

Module Toy.

Definition phrase_eqb (a b : Phrase) : bool :=
  if list_eq_dec Nat.eq_dec a b then true else false.

(** A similarity in [0, 1]: exact match scores 1, a common first token 1/2. *)
Definition similarity (g r : list Tok) : Q :=
  match g with
  | [] => 0%Q
  | x :: _ =>
      if phrase_eqb g r then 1%Q
      else match r with
           | y :: _ => if Nat.eqb x y then (1 # 2)%Q else 0%Q
           | [] => 0%Q
           end
  end.

Definition VOCAB : nat := 3.

Definition uniform_row : Row := [0%R; 0%R; 0%R].

Definition decode_argmax (net : nat) (enc : list Phrase) (beg : nat) (seq_len : nat)
    (stop_token : Tok) : Logits * list Tok :=
  let tokens := firstn seq_len (map (fun t => (t + net) mod VOCAB) (hd [] enc)) in
  (map (fun _ => uniform_row) tokens, tokens).

Definition decode_sampling (net : nat) (enc : list Phrase) (beg : nat) (seq_len : nat)
    (stop_token : Tok) (g : nat) : Logits * list Tok * nat :=
  let tokens := firstn seq_len [g mod VOCAB; (g / VOCAB) mod VOCAB] in
  (map (fun _ => uniform_row) tokens, tokens, g + 1).

(** [data[i:i+n]] for [i] in [range(0, len(data), n)]. *)
Fixpoint chunks (fuel : nat) (data : list PhrasePair) (n : nat) : list (list PhrasePair) :=
  match fuel with
  | 0 => []
  | S fuel' =>
      match data with
      | [] => []
      | _ => firstn n data :: chunks fuel' (skipn n data) n
      end
  end.

Definition model : Collaborators := {|
  Params := nat;
  OptState := nat;
  Grads := nat;
  Rng := nat;
  PackedSeq := list Phrase;
  Embedding := nat;
  Encoded := list Phrase;
  pack_input := fun p _ => [p];
  pack_batch_no_out := fun batch _ => (map fst batch, map fst batch, map snd batch);
  emb := fun _ t => t;
  first_item := fun _ => 0;
  encode := fun _ s => s;
  get_encoded_item := fun enc idx => [nth idx enc []];
  decode_chain_argmax := decode_argmax;
  decode_chain_sampling := decode_sampling;
  calc_bleu_many := Utils.calc_bleu_many similarity;
  MAX_TOKENS := 20;
  iterate_batches := fun data n => chunks (length data) data n;
  shuffle := fun data g => (rev data, g + 1);
  zero_grad := fun _ => 0;
  backward := fun _ _ acts _ g => g + length acts;
  adam_step := fun o p g => (o + 1, p + g)
|}.

Definition args : Args := mkArgs 2 false.
Definition end_token : Tok := 1.
Definition beg_token : Tok := 0.

(** Example A: the greedy decode [[2; 1]] matches the reference exactly. *)
Definition pair_a : PhrasePair := ([2; 1], [[0; 2; 1]]).
(** Example B: the greedy decode [[0; 1]] misses the reference [[1; 0]]. *)
Definition pair_b : PhrasePair := ([0; 1], [[0; 1; 0]]).
(** Example C: the greedy decode [[1; 1]] shares its first token with the
    reference [[1; 2]]. *)
Definition pair_c : PhrasePair := ([1; 1], [[0; 1; 2]]).

Definition batch_abc : list PhrasePair := [pair_a; pair_b; pair_c].

Definition st0 : @Vars model := @init_vars model 0 0 0 0 batch_abc.

Definition value {A : Type} (d : A) (r : Res A) : A :=
  match r with
  | Ok a => a
  | Raise _ => d
  end.

End Toy.

(** ** Vocabulary of the statements *)

Section Statements.

Context {C : Collaborators}.

(** The greedy reward of example [idx] of a batch (lines 124-128). *)
Definition greedy_reward (net : Params) (end_token : Tok) (enc : Encoded)
    (beg_embedding : Embedding) (idx : nat) (refs : list Phrase) : Q :=
  calc_bleu_many
    (snd (decode_chain_argmax net (get_encoded_item enc idx) beg_embedding MAX_TOKENS end_token))
    (strip_first refs).

(** The score of one pair of the evaluation set (lines 36-44). *)
Definition test_score (net : Params) (end_token : Tok) (pair : PhrasePair) : Q :=
  let input_seq := pack_input (fst pair) net in
  calc_bleu_many
    (snd (decode_chain_argmax net (encode net input_seq) (first_item input_seq)
            MAX_TOKENS end_token))
    (strip_first (snd pair)).

(** The variables a forward pass leaves alone. *)
Definition same_model (st st' : Vars) : Prop :=
  net st' = net st /\ optimiser st' = optimiser st /\ grads st' = grads st /\
  train_data st' = train_data st /\ batch_idx st' = batch_idx st /\
  best_bleu st' = best_bleu st.

(** The three accumulators hold exactly the recorded trajectories, flattened
    in order. *)
Definition accumulated (st : Vars) : Prop :=
  net_policies st = map t_logits (recorded st) /\
  net_actions st = concat (map t_tokens (recorded st)) /\
  net_advantages st = concat (map advantages (recorded st)).

(** [t] is an output of the stochastic decoder for the encoded example
    [item_enc], scored against [ref_indices], with the greedy reward
    [argmax_bleu] as baseline. *)
Definition sampled_for (net : Params) (end_token : Tok) (item_enc : Encoded)
    (beg_embedding : Embedding) (ref_indices : list Phrase) (argmax_bleu : Q)
    (t : Trajectory) : Prop :=
  (exists g g',
     decode_chain_sampling net item_enc beg_embedding MAX_TOKENS end_token g
     = (t_logits t, t_tokens t, g')) /\
  t_baseline t = argmax_bleu /\ t_reward t = calc_bleu_many (t_tokens t) ref_indices.

(** [st'] is [st] with the trajectories [new] appended to the accumulators. *)
Definition records (st st' : Vars) (new : list Trajectory) : Prop :=
  same_model st st' /\
  recorded st' = recorded st ++ new /\
  net_policies st' = net_policies st ++ map t_logits new /\
  net_actions st' = net_actions st ++ concat (map t_tokens new) /\
  net_advantages st' = net_advantages st ++ concat (map advantages new) /\
  bleus_sample st' = bleus_sample st ++ map t_reward new.

Definition sample_log (t : Trajectory) : Event :=
  Info (MsgSample (t_tokens t) (t_reward t)).

(** What is logged for an example that is sampled while [dial_shown] is
    false (lines 136-153). *)
Definition example_logs (inp_idx : Phrase) (ref_indices : list Phrase)
    (actions : list Tok) (argmax_bleu : Q) (new : list Trajectory) : list Event :=
  [Info (MsgInput inp_idx); Info (MsgRefer ref_indices); Info (MsgArgmax actions argmax_bleu)]
  ++ map sample_log new.

Definition is_track (e : Event) : bool :=
  match e with
  | Track _ _ _ => true
  | _ => false
  end.

Definition is_best_save (e : Event) : bool :=
  match e with
  | Save _ (BleuFile _ _) => true
  | _ => false
  end.

(** The diagnostic lines about one example: its input, its references, its
    greedy decode and its samples. *)
Definition is_dialogue_log (e : Event) : bool :=
  match e with
  | Info (MsgInput _) | Info (MsgRefer _) | Info (MsgArgmax _ _) | Info (MsgSample _ _) => true
  | _ => false
  end.

(** The diagnostic lines of exactly one example. *)
Definition one_dialogue (args : Args) (evs : list Event) : Prop :=
  exists inp refs actions b new,
    evs = example_logs inp refs actions b new /\ length new = Z.to_nat (samples args).

(** From [st] to [st'] either no diagnostic line was written and the flag
    kept its value, or the flag went from false to true and the lines of
    exactly one example were written. *)
Definition shows_at_most_one (args : Args) (st st' : Vars) : Prop :=
  exists evs,
    out st' = out st ++ evs /\
    ((dial_shown st' = dial_shown st /\ filter is_dialogue_log evs = []) \/
     (dial_shown st = false /\ dial_shown st' = true /\
      one_dialogue args (filter is_dialogue_log evs))).

(** The state at the start of batch number [k] (from 0) of an epoch entered
    in state [st]. *)
Definition before_batch (args : Args) (end_token beg_token : Tok) (k : nat)
    (st : Vars) : Res Vars :=
  let st := epoch_begin st in
  for_each (batch_step args end_token beg_token)
    (firstn k (iterate_batches (train_data st) BATCH_SIZE)) st.

End Statements.

(** ** Runs of the small model *)

Module ToyRuns.

Import Toy.

#[local] Existing Instance model.

(** The batch [A; B; C] after the loop over its examples: A is skipped, B
    and C are sampled twice each. *)
Definition st1 : Vars :=
  value st0 (batch_collect args end_token beg_token batch_abc st0).

(** A batch made of example A alone after the loop over its examples. *)
Definition st_solved : Vars :=
  value st0 (batch_collect args end_token beg_token [pair_a] st0).

(** The batch [A; B; C] of [st0] as the loop over the examples sees it. *)
Definition enc_abc : list Phrase := map fst batch_abc.
Definition output_abc : list (list Phrase) := map snd batch_abc.

Definition test_data : list PhrasePair := [pair_a; pair_b].


Definition st_epoch : Vars :=
  value st0 (epoch_step args end_token beg_token test_data 0 st0).

(** Seventeen distinct three-token phrases, each with a one-token reference
    that no greedy decode can match: two batches per epoch, no example
    skipped. *)
Definition data17 : list PhrasePair :=
  map (fun k => ([k mod 3; (k / 3) mod 3; (k / 9) mod 3], [[0; 1]])) (seq 0 17).

Definition st17 : Vars := init_vars 0 0 0 0 data17.

End ToyRuns.

(** ** The reverse vocabulary (line 80) *)

(** A Python dict: its items in insertion order, every key once. *)
Definition Dict (K V : Type) : Type := list (K * V).

(** [d[k]]; [None] stands for the KeyError of a missing key. *)
Fixpoint dict_get {K V : Type} (eqb : K -> K -> bool) (k : K) (d : Dict K V) : option V :=
  match d with
  | [] => None
  | (k', v) :: d' => if eqb k k' then Some v else dict_get eqb k d'
  end.

(** [d[k] = v]: a present key keeps its place and takes the new value, a new
    key goes last. *)
Fixpoint dict_set {K V : Type} (eqb : K -> K -> bool) (k : K) (v : V) (d : Dict K V)
    : Dict K V :=
  match d with
  | [] => [(k, v)]
  | (k', v') :: d' => if eqb k k' then (k', v) :: d' else (k', v') :: dict_set eqb k v d'
  end.

(** [{idx: word for word, idx in emb_dict.items()}] *)
Definition rev_emb_dict (emb_dict : Dict string nat) : Dict nat string :=
  fold_left (fun d item => dict_set Nat.eqb (snd item) (fst item) d) emb_dict [].

(** ** More vocabulary of the statements *)

Section MoreStatements.

Context {C : Collaborators}.

(** The phrases and the reference lists the loop over the examples of a
    batch goes through (line 110). *)
Definition input_batch_of (batch : list PhrasePair) (st : Vars) : list Phrase :=
  snd (fst (pack_batch_no_out batch (net st))).

Definition output_batch_of (batch : list PhrasePair) (st : Vars) : list (list Phrase) :=
  snd (pack_batch_no_out batch (net st)).

Definition is_epoch_save (e : Event) : bool :=
  match e with
  | Save _ (EpochFile _ _ _) => true
  | _ => false
  end.

(** The values written under the tag [bleu_test], oldest first. *)
Definition test_metrics (evs : list Event) : list Q :=
  flat_map
    (fun e =>
       match e with
       | AddScalar tag (Some v) _ => if String.eqb tag "bleu_test" then [v] else []
       | _ => []
       end)
    evs.

(** The tracker holds the largest test metric written so far, and is unset
    when none was written. *)
Definition tracker_is_max (st : Vars) : Prop :=
  match best_bleu st with
  | None => test_metrics (out st) = []
  | Some b =>
      In b (test_metrics (out st)) /\
      forall x, In x (test_metrics (out st)) -> (x <= b)%Q
  end.

(** Every sampled trajectory scores exactly the greedy reward of its example. *)
Definition all_tied (trajs : list Trajectory) : bool :=
  forallb (fun t => Qeq_bool (t_reward t) (t_baseline t)) trajs.

(** What the end of an epoch writes (lines 181-192), for the test metric
    [bleu_test] and the share of skipped examples [ratio]. *)
Definition epoch_end_events (st : Vars) (epoch : nat) (bleu_test ratio : Q) : list Event :=
  [AddScalar "bleu_test" (Some bleu_test) (batch_idx st);
   AddScalar "bleu_argmax" (np_mean (bleus_argmax st)) (batch_idx st);
   AddScalar "bleu_sample" (np_mean (bleus_sample st)) (batch_idx st);
   AddScalar "skipped_samples" (Some ratio) (batch_idx st);
   AddScalar "epoch" (Some (inject_Z (Z.of_nat (batch_idx st)))) epoch;
   Info (MsgEpoch epoch bleu_test)]
  ++ (if improves (best_bleu st) bleu_test
      then [Info (MsgBest bleu_test); Save (net st) (BleuFile bleu_test epoch)]
      else [])
  ++ (if Nat.eqb (epoch mod 10) 0
      then [Save (net st) (EpochFile epoch (np_mean (bleus_argmax st)) bleu_test)]
      else []).

End MoreStatements.

(** ** More runs of the small model *)

Module ToyMore.

Import Toy ToyRuns.

#[local] Existing Instance model.

(** No training phrase at all. *)
Definition st_nodata : Vars := init_vars 0 0 0 0 [].

(** [--samples 0] *)
Definition args_nosample : Args := mkArgs 0 false.

(** Two epochs without any sample. *)
Definition st_idle : Vars :=
  value st0 (run_epochs args_nosample end_token beg_token test_data 2 st0).

(** Two epochs of the ordinary run. *)
Definition st_two : Vars :=
  value st0 (run_epochs args end_token beg_token test_data 2 st0).

(** [--samples 1] on example B alone: the one sample scores 0, as the greedy
    decode does. *)
Definition args_one : Args := mkArgs 1 false.

Definition st_tie : Vars :=
  value st0 (batch_collect args_one end_token beg_token [pair_b] st0).

(** The whole batch [A; B; C], update included. *)
Definition st_updated : Vars :=
  value st0 (batch_step args end_token beg_token batch_abc st0).

Definition emb_words : Dict string nat :=
  [("#BEG"%string, 0); ("hello"%string, 1); ("#END"%string, 2)].


(** A vocabulary in which two words share the index 1. *)
Definition emb_clash : Dict string nat :=
  [("hi"%string, 1); ("hello"%string, 1); ("#END"%string, 2)].

End ToyMore.

(** * Properties *)

Unset Implicit Arguments.

(** ** Comparisons and loops *)

Lemma Qgtb_true (x y : Q) : Qgtb x y = true <-> (y < x)%Q.
Proof.
  unfold Qgtb. rewrite negb_true_iff. split; intro H.
  - apply Qnot_le_lt. intro Hle. apply Qle_bool_iff in Hle. congruence.
  - destruct (Qle_bool x y) eqn:E; [|reflexivity].
    apply Qle_bool_iff in E. exfalso. apply (Qlt_not_le _ _ H E).
Qed.

Lemma Qgtb_false (x y : Q) : Qgtb x y = false <-> (x <= y)%Q.
Proof.
  unfold Qgtb. rewrite negb_false_iff. apply Qle_bool_iff.
Qed.

(** A relation closed under the body of a loop holds across the whole loop. *)
Lemma for_each_rel {A St : Type} (body : A -> St -> Res St) (Rel : St -> St -> Prop) :
  (forall st, Rel st st) ->
  (forall a b c, Rel a b -> Rel b c -> Rel a c) ->
  (forall x st st', body x st = Ok st' -> Rel st st') ->
  forall l st st', for_each body l st = Ok st' -> Rel st st'.
Proof.
  intros Hrefl Htrans Hbody l. induction l as [|x l IH]; intros st st' H; simpl in H.
  - injection H as <-. apply Hrefl.
  - destruct (body x st) as [st1|e] eqn:E; simpl in H; [|discriminate].
    eapply Htrans; [eapply Hbody; eassumption|apply IH; assumption].
Qed.

(** ** The reward scorer *)

Module UtilsFacts.

Import Utils.

Section Scorer.

Variable similarity : list Tok -> list Tok -> Q.

Lemma keep_best_ge_seed (best x : Q) : (best <= keep_best best x)%Q.
Proof.
  unfold keep_best. destruct (Qgtb x best) eqn:E.
  - apply Qgtb_true in E. apply Qlt_le_weak, E.
  - apply Qle_refl.
Qed.

Lemma keep_best_ge_elem (best x : Q) : (x <= keep_best best x)%Q.
Proof.
  unfold keep_best. destruct (Qgtb x best) eqn:E.
  - apply Qle_refl.
  - apply Qgtb_false in E. exact E.
Qed.

Lemma fold_keep_best_ge_seed (l : list Q) (b : Q) : (b <= fold_left keep_best l b)%Q.
Proof.
  revert b. induction l as [|x l IH]; intros b; simpl; [apply Qle_refl|].
  eapply Qle_trans; [apply keep_best_ge_seed|apply IH].
Qed.

Lemma fold_keep_best_upper (l : list Q) (b x : Q) :
  In x l -> (x <= fold_left keep_best l b)%Q.
Proof.
  revert b. induction l as [|y l IH]; intros b Hin; simpl; [destruct Hin|].
  destruct Hin as [->|Hin].
  - eapply Qle_trans; [apply keep_best_ge_elem|apply fold_keep_best_ge_seed].
  - apply IH, Hin.
Qed.

Lemma fold_keep_best_attained (l : list Q) (b : Q) :
  fold_left keep_best l b = b \/ In (fold_left keep_best l b) l.
Proof.
  revert b. induction l as [|y l IH]; intros b; simpl; [left; reflexivity|].
  destruct (IH (keep_best b y)) as [H|H].
  - rewrite H. unfold keep_best. destruct (Qgtb y b); [right; left|left]; reflexivity.
  - right; right; exact H.
Qed.

(** On a non-empty list whose elements are all at least the seed, the fold
    returns (up to equality of rationals) one of the elements. *)
Lemma fold_keep_best_is_max (l : list Q) (b : Q) :
  l <> [] -> (forall x, In x l -> (b <= x)%Q) ->
  exists x, In x l /\ (fold_left keep_best l b == x)%Q.
Proof.
  intros Hne Hlow. destruct (fold_keep_best_attained l b) as [H|H].
  - destruct l as [|x l]; [contradiction|]. exists x. split; [left; reflexivity|].
    rewrite H. apply Qle_antisym.
    + apply Hlow. left; reflexivity.
    + rewrite <- H. apply fold_keep_best_upper. left; reflexivity.
  - exists (fold_left keep_best l b). split; [exact H|reflexivity].
Qed.

(** C6.  With a similarity bounded in [[min_score, max_score]] that gives the
    minimum to an empty candidate, the scorer returns, for every generated
    sequence [g] and every non-empty list of references, the maximum pairwise
    similarity: the similarity of [g] to one of the references, and at least
    its similarity to each of them.  For an empty generated sequence it
    returns the minimum score, a value like any other; the score always lies
    in the bounded range. *)
Theorem calc_bleu_many_best_of_refs
    (Hrange : forall g r, (min_score <= similarity g r)%Q /\ (similarity g r <= max_score)%Q)
    (Hempty : forall r, (similarity [] r == min_score)%Q)
    (g : list Tok) (refs : list (list Tok)) :
  refs <> [] ->
  (exists r, In r refs /\ (calc_bleu_many similarity g refs == similarity g r)%Q) /\
  (forall r, In r refs -> (similarity g r <= calc_bleu_many similarity g refs)%Q) /\
  calc_bleu_many similarity [] refs = min_score /\
  (min_score <= calc_bleu_many similarity g refs)%Q /\
  (calc_bleu_many similarity g refs <= max_score)%Q.
Proof.
  intros Hne.
  assert (Hmap : map (similarity g) refs <> []).
  { destruct refs; [contradiction|discriminate]. }
  assert (Hlow : forall x, In x (map (similarity g) refs) -> (min_score <= x)%Q).
  { intros x Hx. apply in_map_iff in Hx. destruct Hx as [r [<- _]]. apply Hrange. }
  destruct g as [|t g].
  - simpl. repeat split.
    + destruct refs as [|r refs]; [contradiction|]. exists r. split; [left; reflexivity|].
      symmetry. apply Hempty.
    + intros r _. rewrite Hempty. apply Qle_refl.
    + apply Qle_refl.
    + discriminate.
  - unfold calc_bleu_many.
    destruct (fold_keep_best_is_max _ min_score Hmap Hlow) as [x [Hx Heq]].
    apply in_map_iff in Hx. destruct Hx as [r [<- Hr]].
    repeat split.
    + exists r. split; assumption.
    + intros r' Hr'. apply fold_keep_best_upper. apply in_map. exact Hr'.
    + apply fold_keep_best_ge_seed.
    + rewrite Heq. apply Hrange.
Qed.

End Scorer.

End UtilsFacts.

(** ** The policy-gradient loss *)

Lemma combine_app_same {A B : Type} (l1 l2 : list A) (m1 m2 : list B) :
  length l1 = length m1 ->
  combine (l1 ++ l2) (m1 ++ m2) = combine l1 m1 ++ combine l2 m2.
Proof.
  revert m1. induction l1 as [|x l1 IH]; intros [|y m1] H; simpl in *; try discriminate.
  - reflexivity.
  - f_equal. apply IH. congruence.
Qed.

Lemma aligned_inv (V : nat) (t : Trajectory) :
  aligned V t = true ->
  length (t_logits t) = length (t_tokens t) /\
  Forall (fun row => length row = V) (t_logits t) /\
  Forall (fun tok => tok < V) (t_tokens t).
Proof.
  unfold aligned. rewrite !andb_true_iff. intros [[H1 H2] H3].
  apply Nat.eqb_eq in H1. split; [exact H1|]. split.
  - apply Forall_forall. intros row Hrow.
    apply Nat.eqb_eq. revert row Hrow. apply forallb_forall. exact H2.
  - apply Forall_forall. intros tok Htok.
    apply Nat.ltb_lt. revert tok Htok. apply forallb_forall. exact H3.
Qed.

Lemma aligned_rows (V : nat) (trajs : list Trajectory) :
  forallb (aligned V) trajs = true ->
  Forall (fun row => length row = V) (concat (map t_logits trajs)).
Proof.
  induction trajs as [|t trajs IH]; simpl; intros H; [constructor|].
  apply andb_true_iff in H. destruct H as [Ht H].
  apply Forall_app. split; [apply (aligned_inv V t Ht)|apply IH, H].
Qed.

Lemma torch_cat_aligned (V : nat) (trajs : list Trajectory) :
  trajs <> [] -> forallb (aligned V) trajs = true ->
  torch_cat (map t_logits trajs) = Ok (concat (map t_logits trajs)).
Proof.
  intros Hne Hal. unfold torch_cat.
  destruct (map t_logits trajs) eqn:E.
  - destruct trajs; [contradiction|discriminate].
  - rewrite <- E. clear E.
    assert (Hrows := aligned_rows V trajs Hal).
    assert (Hw : forallb (width_ok (first_width (map t_logits trajs))) (map t_logits trajs)
                 = true).
    { unfold first_width. destruct (concat (map t_logits trajs)) as [|r0 rest] eqn:Ec.
      - apply forallb_forall. reflexivity.
      - assert (Hr0 : length r0 = V) by (inversion Hrows; assumption).
        apply forallb_forall. intros m Hm. simpl. rewrite Hr0.
        apply in_map_iff in Hm. destruct Hm as [t [<- Ht]].
        apply forallb_forall. intros row Hrow. apply Nat.eqb_eq.
        assert (Hal' : aligned V t = true).
        { exact (proj1 (forallb_forall (aligned V) trajs) Hal t Ht). }
        destruct (aligned_inv V t Hal') as (_ & Hf & _).
        exact (proj1 (Forall_forall _ (t_logits t)) Hf row Hrow). }
    rewrite Hw. reflexivity.
Qed.

Lemma log_softmax_row_length (row : Row) : length (log_softmax_row row) = length row.
Proof. unfold log_softmax_row. apply length_map. Qed.

(** Indexing row [i] at the token generated at step [i] picks, for every
    step, the log-probability of the generated token. *)
Lemma index_pairs_picks (pre rows : Logits) (toks : list Tok) :
  length rows = length toks ->
  Forall2 (fun row tok => tok < length row) rows toks ->
  index_pairs (log_softmax (pre ++ rows)) (seq (length pre) (length toks)) toks
  = Ok (map (fun p => token_log_prob (fst p) (snd p)) (combine rows toks)).
Proof.
  revert pre toks. induction rows as [|row rows IH]; intros pre [|tok toks] Hlen Hlt;
    simpl in Hlen; try discriminate.
  - reflexivity.
  - inversion Hlt as [|? ? ? ? Htok Hrest]; subst.
    simpl. unfold log_softmax at 1.
    rewrite nth_error_map, nth_error_app2, Nat.sub_diag by lia. simpl.
    assert (Hn : nth_error (log_softmax_row row) tok
                 = Some (nth tok (log_softmax_row row) 0%R)).
    { apply nth_error_nth'. rewrite log_softmax_row_length. exact Htok. }
    rewrite Hn.
    specialize (IH (pre ++ [row]) toks).
    rewrite length_app, Nat.add_1_r, <- app_assoc in IH. simpl in IH.
    fold (log_softmax (pre ++ row :: rows)).
    rewrite IH by (try congruence; assumption).
    reflexivity.
Qed.

Lemma tokens_in_range (V : nat) (rows : Logits) (toks : list Tok) :
  length rows = length toks ->
  Forall (fun row => length row = V) rows -> Forall (fun tok => tok < V) toks ->
  Forall2 (fun row tok => tok < length row) rows toks.
Proof.
  revert toks. induction rows as [|row rows IH]; intros [|tok toks] Hlen Hr Ht;
    simpl in Hlen; try discriminate; constructor.
  - inversion Hr; inversion Ht; subst. lia.
  - inversion Hr; inversion Ht; subst. apply IH; [congruence|assumption|assumption].
Qed.

Lemma aligned_concat (V : nat) (trajs : list Trajectory) :
  forallb (aligned V) trajs = true ->
  length (concat (map t_logits trajs)) = length (concat (map t_tokens trajs)) /\
  Forall (fun tok => tok < V) (concat (map t_tokens trajs)).
Proof.
  induction trajs as [|t trajs IH]; simpl; intros H; [split; [reflexivity|constructor]|].
  apply andb_true_iff in H. destruct H as [Ht H].
  destruct (aligned_inv V t Ht) as (Hl & _ & Htok). destruct (IH H) as [IH1 IH2].
  split; [rewrite !length_app; congruence|apply Forall_app; split; assumption].
Qed.

(** The flat product of the advantages with the picked log-probabilities is
    the list of the trajectories' weighted log-probabilities, in order. *)
Lemma weighted_concat (V : nat) (trajs : list Trajectory) :
  forallb (aligned V) trajs = true ->
  map (fun p => (fst p * snd p)%R)
    (combine (FloatTensor (concat (map advantages trajs)))
       (map (fun p => token_log_prob (fst p) (snd p))
          (combine (concat (map t_logits trajs)) (concat (map t_tokens trajs)))))
  = concat (map weighted_log_probs trajs).
Proof.
  induction trajs as [|t trajs IH]; simpl; intros H; [reflexivity|].
  apply andb_true_iff in H. destruct H as [Ht H].
  destruct (aligned_inv V t Ht) as (Hl & _ & _).
  unfold FloatTensor in *. rewrite map_app.
  rewrite (combine_app_same _ _ _ _ Hl), map_app.
  rewrite combine_app_same.
  - rewrite map_app, (IH H). f_equal.
    unfold weighted_log_probs, advantages. rewrite <- Hl.
    generalize (t_tokens t). generalize (advantage t). clear.
    induction (t_logits t) as [|row rows IHr]; intros a [|tok toks]; simpl;
      try reflexivity.
    f_equal. apply IHr.
  - rewrite !length_map, length_combine, <- Hl, Nat.min_id.
    unfold advantages. rewrite repeat_length. symmetry. exact Hl.
Qed.

Lemma neg_mean (l : list R) :
  scalar_neg (tensor_mean l)
  = match l with
    | [] => NaN
    | _ => Real (- (Rsum l / INR (length l)))
    end.
Proof. destruct l; reflexivity. Qed.

(** On the flattened accumulators of aligned trajectories the loss of lines
    164-169 is the negative mean of the weighted log-probabilities. *)
Lemma loss_policy_flat (V : nat) (trajs : list Trajectory) :
  trajs <> [] -> forallb (aligned V) trajs = true ->
  loss_policy (map t_logits trajs) (concat (map t_tokens trajs))
    (concat (map advantages trajs))
  = Ok (mean_loss trajs).
Proof.
  intros Hne Hal. unfold loss_policy.
  rewrite (torch_cat_aligned V trajs Hne Hal). simpl bind.
  destruct (aligned_concat V trajs Hal) as [Hlen Htok].
  assert (Hpick := index_pairs_picks [] (concat (map t_logits trajs))
                     (concat (map t_tokens trajs)) Hlen
                     (tokens_in_range V _ _ Hlen (aligned_rows V trajs Hal) Htok)).
  simpl in Hpick. rewrite Hpick. simpl bind.
  unfold tensor_mul.
  assert (Hl : length (FloatTensor (concat (map advantages trajs)))
               = length (map (fun p => token_log_prob (fst p) (snd p))
                           (combine (concat (map t_logits trajs))
                              (concat (map t_tokens trajs))))).
  { unfold FloatTensor. rewrite !length_map, length_combine, Hlen, Nat.min_id.
    clear. induction trajs as [|t trajs IH]; simpl; [reflexivity|].
    rewrite !length_app, IH. unfold advantages. rewrite repeat_length. reflexivity. }
  rewrite Hl, Nat.eqb_refl. simpl bind.
  rewrite (weighted_concat V trajs Hal), neg_mean. reflexivity.
Qed.

(** ** The sampling loop and the per-example step *)

Section TrainerFacts.

Context {C : Collaborators}.

Lemma same_model_refl (st : Vars) : same_model st st.
Proof. repeat split. Qed.

Lemma same_model_trans (a b c : Vars) : same_model a b -> same_model b c -> same_model a c.
Proof.
  unfold same_model. intros (H1 & H2 & H3 & H4 & H5 & H6) (K1 & K2 & K3 & K4 & K5 & K6).
  repeat split; congruence.
Qed.

Lemma records_nil (st : Vars) : records st st [].
Proof.
  unfold records. simpl. rewrite !app_nil_r. repeat split.
Qed.

Lemma records_trans (a b c : Vars) (l1 l2 : list Trajectory) :
  records a b l1 -> records b c l2 -> records a c (l1 ++ l2).
Proof.
  unfold records. intros (F1 & R1 & P1 & A1 & V1 & S1) (F2 & R2 & P2 & A2 & V2 & S2).
  split; [eapply same_model_trans; eassumption|].
  rewrite R2, P2, A2, V2, S2, R1, P1, A1, V1, S1.
  rewrite !map_app, !concat_app, <- !app_assoc. repeat split.
Qed.

(** One sample appends its trajectory to every accumulator and advances the
    generator; nothing else changes but the log. *)
Lemma sample_step_eq (end_token : Tok) (item_enc : Encoded) (beg : Embedding)
    (refs : list Phrase) (argmax_bleu : Q) (st : Vars) :
  forall r a g,
    decode_chain_sampling (net st) item_enc beg MAX_TOKENS end_token (rng st) = (r, a, g) ->
    let t := mkTrajectory r a (calc_bleu_many a refs) argmax_bleu in
    sample_step end_token item_enc beg refs argmax_bleu st =
    mkVars (net st) (optimiser st) (grads st) g (train_data st) (batch_idx st) (best_bleu st)
      (dial_shown st) (total_samples st) (skipped_samples st) (bleus_argmax st)
      (bleus_sample st ++ [t_reward t]) (net_policies st ++ [r]) (net_actions st ++ a)
      (net_advantages st ++ advantages t) (recorded st ++ [t])
      (out st ++ (if dial_shown st then [] else [sample_log t])).
Proof.
  intros r a g E t. unfold sample_step. rewrite E.
  destruct st; simpl. destruct dial_shown0; simpl; rewrite ?app_nil_r; reflexivity.
Qed.

Lemma sample_step_records (end_token : Tok) (item_enc : Encoded) (beg : Embedding)
    (refs : list Phrase) (argmax_bleu : Q) (st : Vars) :
  exists t,
    let st' := sample_step end_token item_enc beg refs argmax_bleu st in
    records st st' [t] /\
    sampled_for (net st) end_token item_enc beg refs argmax_bleu t /\
    (exists g, decode_chain_sampling (net st) item_enc beg MAX_TOKENS end_token (rng st)
               = (t_logits t, t_tokens t, g) /\ rng st' = g) /\
    dial_shown st' = dial_shown st /\ total_samples st' = total_samples st /\
    skipped_samples st' = skipped_samples st /\ bleus_argmax st' = bleus_argmax st /\
    out st' = out st ++ (if dial_shown st then [] else [sample_log t]).
Proof.
  destruct (decode_chain_sampling (net st) item_enc beg MAX_TOKENS end_token (rng st))
    as [[r a] g] eqn:E.
  exists (mkTrajectory r a (calc_bleu_many a refs) argmax_bleu).
  cbv zeta. rewrite (sample_step_eq _ _ _ _ _ _ _ _ _ E). simpl.
  split; [unfold records, same_model; simpl; rewrite !app_nil_r; repeat split|].
  split.
  { unfold sampled_for. simpl. split; [|split; reflexivity].
    exists (rng st), g. exact E. }
  split; [exists g; split; reflexivity|].
  repeat split.
Qed.

(** The loop over [range(args.samples)]: one trajectory per iteration. *)
Lemma sample_loop_records (end_token : Tok) (item_enc : Encoded) (beg : Embedding)
    (refs : list Phrase) (argmax_bleu : Q) (l : list nat) (st : Vars) :
  exists new,
    let st' :=
      fold_left (fun st _ => sample_step end_token item_enc beg refs argmax_bleu st) l st in
    records st st' new /\ length new = length l /\
    Forall (sampled_for (net st) end_token item_enc beg refs argmax_bleu) new /\
    dial_shown st' = dial_shown st /\ total_samples st' = total_samples st /\
    skipped_samples st' = skipped_samples st /\ bleus_argmax st' = bleus_argmax st /\
    out st' = out st ++ (if dial_shown st then [] else map sample_log new).
Proof.
  revert st. induction l as [|x l IH]; intros st.
  - exists []. simpl. split; [apply records_nil|].
    repeat split; auto. destruct (dial_shown st); rewrite app_nil_r; reflexivity.
  - destruct (sample_step_records end_token item_enc beg refs argmax_bleu st)
      as (t & R1 & S1 & _ & D1 & T1 & K1 & B1 & O1).
    cbv zeta in *.
    destruct (IH (sample_step end_token item_enc beg refs argmax_bleu st))
      as (new & R2 & L2 & S2 & D2 & T2 & K2 & B2 & O2).
    cbv zeta in *. exists (t :: new). simpl.
    pose proof (proj1 (proj1 R1)) as N1. rewrite N1 in S2.
    split; [apply (records_trans _ _ _ [t] new R1 R2)|].
    split; [simpl; congruence|].
    split; [constructor; assumption|].
    repeat split; try congruence.
    rewrite O2, O1, D1. destruct (dial_shown st); simpl; rewrite <- ?app_assoc; reflexivity.
Qed.

Lemma range_length (n : Z) : length (range n) = Z.to_nat n.
Proof. unfold range. apply length_seq. Qed.

Lemma Qgtb_cases (x y : Q) :
  (Qgtb x y = true /\ (y < x)%Q) \/ (Qgtb x y = false /\ (x <= y)%Q).
Proof.
  destruct (Qgtb x y) eqn:E; [left|right]; (split; [reflexivity|]).
  - apply Qgtb_true, E.
  - apply Qgtb_false, E.
Qed.

(** The two ways through the body of the loop over the examples: the example
    is skipped, or it is sampled [args.samples] times. *)
Lemma example_step_cases (args : Args) (end_token : Tok) (enc : Encoded) (beg : Embedding)
    (output_batch : list (list Phrase)) (idx : nat) (inp_idx : Phrase) (refs : list Phrase)
    (st : Vars) :
  nth_error output_batch idx = Some refs ->
  let b := greedy_reward (net st) end_token enc beg idx refs in
  let actions :=
    snd (decode_chain_argmax (net st) (get_encoded_item enc idx) beg MAX_TOKENS end_token) in
  exists st',
    example_step args end_token enc beg output_batch (idx, inp_idx) st = Ok st' /\
    total_samples st' = total_samples st + 1 /\
    bleus_argmax st' = bleus_argmax st ++ [b] /\
    ((disable_skip args = false /\ (SKIP_BLEU < b)%Q /\
      records st st' [] /\ rng st' = rng st /\
      skipped_samples st' = skipped_samples st + 1 /\
      dial_shown st' = dial_shown st /\ out st' = out st) \/
     ((disable_skip args = true \/ (b <= SKIP_BLEU)%Q) /\
      exists new,
        records st st' new /\ length new = Z.to_nat (samples args) /\
        Forall
          (sampled_for (net st) end_token (get_encoded_item enc idx) beg (strip_first refs) b)
          new /\
        skipped_samples st' = skipped_samples st /\
        dial_shown st' = true /\
        out st' = out st ++
          (if dial_shown st then []
           else example_logs inp_idx (strip_first refs) actions b new))).
Proof.
  intros Hnth b actions. unfold example_step. rewrite Hnth.
  unfold b, actions, greedy_reward.
  destruct (decode_chain_argmax (net (set_total_samples (total_samples st + 1) st))
              (get_encoded_item enc idx) beg MAX_TOKENS end_token) as [r_argmax acts] eqn:E.
  change (net (set_total_samples (total_samples st + 1) st)) with (net st) in E.
  rewrite E. simpl snd.
  set (bl := calc_bleu_many acts (strip_first refs)).
  destruct (disable_skip args) eqn:Hskip; simpl negb; cbv beta iota.
  - (* skipping disabled *)
    simpl andb. cbv iota.
    match goal with
    | |- context [fold_left ?f ?l ?s] =>
        destruct (sample_loop_records end_token (get_encoded_item enc idx) beg
                    (strip_first refs) bl l s)
          as (new & R & L & S & D & T & K & B & O)
    end.
    cbv zeta in *. eexists. split; [reflexivity|].
    rewrite range_length in L.
    destruct R as (F & R1 & R2 & R3 & R4 & R5). unfold same_model in F.
    destruct F as (F1 & F2 & F3 & F4 & F5 & F6).
    destruct st; simpl in *. destruct dial_shown0; simpl in *.
    + rewrite T, B. split; [reflexivity|]. split; [reflexivity|]. right.
      split; [left; reflexivity|]. exists new. unfold records, same_model. simpl.
      rewrite O, app_nil_r. repeat split; assumption.
    + rewrite T, B. split; [reflexivity|]. split; [reflexivity|]. right.
      split; [left; reflexivity|]. exists new. unfold records, same_model. simpl.
      rewrite O. unfold example_logs. rewrite <- !app_assoc. simpl.
      repeat split; assumption.
  - destruct (Qgtb_cases bl SKIP_BLEU) as [[Hg Hlt]|[Hg Hle]]; rewrite Hg; simpl andb; cbv iota.
    + (* skipped *)
      eexists. split; [reflexivity|]. destruct st; simpl.
      split; [reflexivity|]. split; [reflexivity|]. left.
      unfold records, same_model; simpl. rewrite !app_nil_r. repeat split; assumption.
    + match goal with
      | |- context [fold_left ?f ?l ?s] =>
          destruct (sample_loop_records end_token (get_encoded_item enc idx) beg
                      (strip_first refs) bl l s)
            as (new & R & L & S & D & T & K & B & O)
      end.
      cbv zeta in *. eexists. split; [reflexivity|].
      rewrite range_length in L.
      destruct R as (F & R1 & R2 & R3 & R4 & R5). unfold same_model in F.
      destruct F as (F1 & F2 & F3 & F4 & F5 & F6).
      destruct st; simpl in *. destruct dial_shown0; simpl in *.
      * rewrite T, B. split; [reflexivity|]. split; [reflexivity|]. right.
        split; [right; exact Hle|]. exists new. unfold records, same_model. simpl.
        rewrite O, app_nil_r. repeat split; assumption.
      * rewrite T, B. split; [reflexivity|]. split; [reflexivity|]. right.
        split; [right; exact Hle|]. exists new. unfold records, same_model. simpl.
        rewrite O. unfold example_logs. rewrite <- !app_assoc. simpl.
        repeat split; assumption.
Qed.

Lemma example_step_ok_refs (args : Args) (end_token : Tok) (enc : Encoded) (beg : Embedding)
    (output_batch : list (list Phrase)) (item : nat * Phrase) (st st' : Vars) :
  example_step args end_token enc beg output_batch item st = Ok st' ->
  exists refs, nth_error output_batch (fst item) = Some refs.
Proof.
  destruct item as [idx inp_idx]. unfold example_step. simpl fst.
  destruct (nth_error output_batch idx) as [refs|]; [eauto|discriminate].
Qed.

Lemma example_step_records (args : Args) (end_token : Tok) (enc : Encoded) (beg : Embedding)
    (output_batch : list (list Phrase)) (item : nat * Phrase) (st st' : Vars) :
  example_step args end_token enc beg output_batch item st = Ok st' ->
  exists new, records st st' new.
Proof.
  intros H. destruct (example_step_ok_refs _ _ _ _ _ _ _ _ H) as [refs Hrefs].
  destruct item as [idx inp_idx]. simpl in Hrefs.
  destruct (example_step_cases args end_token enc beg output_batch idx inp_idx refs st Hrefs)
    as (st2 & E & _ & _ & [Hs|Hs]).
  - rewrite E in H. injection H as <-. exists []. apply Hs.
  - rewrite E in H. injection H as <-. destruct Hs as (_ & new & R & _). exists new. exact R.
Qed.

Lemma filter_dialogue_samples (new : list Trajectory) :
  filter is_dialogue_log (map sample_log new) = map sample_log new.
Proof.
  induction new as [|t new IH]; simpl; [reflexivity|]. rewrite IH. reflexivity.
Qed.

Lemma filter_dialogue_example_logs (inp : Phrase) (refs : list Phrase) (actions : list Tok)
    (b : Q) (new : list Trajectory) :
  filter is_dialogue_log (example_logs inp refs actions b new)
  = example_logs inp refs actions b new.
Proof.
  unfold example_logs. simpl. rewrite filter_dialogue_samples. reflexivity.
Qed.

Lemma shows_at_most_one_refl (args : Args) (st : Vars) : shows_at_most_one args st st.
Proof.
  exists []. rewrite app_nil_r. split; [reflexivity|]. left. split; reflexivity.
Qed.

Lemma shows_at_most_one_trans (args : Args) (a b c : Vars) :
  shows_at_most_one args a b -> shows_at_most_one args b c -> shows_at_most_one args a c.
Proof.
  intros (e1 & O1 & H1) (e2 & O2 & H2). exists (e1 ++ e2).
  split; [rewrite O2, O1, app_assoc; reflexivity|].
  rewrite filter_app.
  destruct H1 as [[D1 F1]|(D1 & D1' & F1)]; destruct H2 as [[D2 F2]|(D2 & D2' & F2)].
  - left. rewrite F1, F2. split; [congruence|reflexivity].
  - right. rewrite F1. simpl. repeat split; [congruence|assumption|assumption].
  - right. rewrite F2, app_nil_r. repeat split; [assumption|congruence|assumption].
  - congruence.
Qed.

Lemma example_step_shows (args : Args) (end_token : Tok) (enc : Encoded) (beg : Embedding)
    (output_batch : list (list Phrase)) (item : nat * Phrase) (st st' : Vars) :
  example_step args end_token enc beg output_batch item st = Ok st' ->
  shows_at_most_one args st st'.
Proof.
  intros H. destruct (example_step_ok_refs _ _ _ _ _ _ _ _ H) as [refs Hrefs].
  destruct item as [idx inp_idx]. simpl in Hrefs.
  destruct (example_step_cases args end_token enc beg output_batch idx inp_idx refs st Hrefs)
    as (st2 & E & _ & _ & [Hs|Hs]); rewrite E in H; injection H as <-.
  - destruct Hs as (_ & _ & _ & _ & _ & D & O). exists [].
    rewrite app_nil_r. split; [exact O|]. left. split; [exact D|reflexivity].
  - destruct Hs as (_ & new & _ & L & _ & _ & D & O).
    destruct (dial_shown st) eqn:Hd.
    + exists []. split; [exact O|]. left. split; [congruence|reflexivity].
    + eexists. split; [exact O|]. right. rewrite filter_dialogue_example_logs.
      repeat split; [exact Hd|exact D|]. unfold one_dialogue. eauto 10.
Qed.

Lemma example_logs_dialogue (inp : Phrase) (refs : list Phrase) (actions : list Tok)
    (b : Q) (new : list Trajectory) :
  Forall (fun e => is_dialogue_log e = true) (example_logs inp refs actions b new).
Proof.
  unfold example_logs. repeat (constructor; [reflexivity|]).
  apply Forall_forall. intros e He. apply in_map_iff in He. destruct He as [t [<- _]].
  reflexivity.
Qed.

(** The per-example step writes diagnostic lines only. *)
Lemma example_step_out (args : Args) (end_token : Tok) (enc : Encoded) (beg : Embedding)
    (output_batch : list (list Phrase)) (item : nat * Phrase) (st st' : Vars) :
  example_step args end_token enc beg output_batch item st = Ok st' ->
  exists evs, out st' = out st ++ evs /\ Forall (fun e => is_dialogue_log e = true) evs.
Proof.
  intros H. destruct (example_step_ok_refs _ _ _ _ _ _ _ _ H) as [refs Hrefs].
  destruct item as [idx inp_idx]. simpl in Hrefs.
  destruct (example_step_cases args end_token enc beg output_batch idx inp_idx refs st Hrefs)
    as (st2 & E & _ & _ & [Hs|Hs]); rewrite E in H; injection H as <-.
  - destruct Hs as (_ & _ & _ & _ & _ & _ & O). exists [].
    rewrite app_nil_r. split; [exact O|constructor].
  - destruct Hs as (_ & new & _ & _ & _ & _ & _ & O).
    eexists. split; [exact O|]. destruct (dial_shown st); [constructor|].
    apply example_logs_dialogue.
Qed.

Lemma dialogue_only_filter (p : Event -> bool) (evs : list Event) :
  (forall e, is_dialogue_log e = true -> p e = false) ->
  Forall (fun e => is_dialogue_log e = true) evs -> filter p evs = [].
Proof.
  intros Hp H. induction H as [|e evs He _ IH]; simpl; [reflexivity|].
  rewrite (Hp e He). exact IH.
Qed.

Lemma dialogue_not_track (e : Event) : is_dialogue_log e = true -> is_track e = false.
Proof. destruct e; simpl; congruence. Qed.

Lemma dialogue_not_best_save (e : Event) : is_dialogue_log e = true -> is_best_save e = false.
Proof. destruct e; simpl; congruence. Qed.

(** ** One batch *)

(** What the loop over the examples of a batch maintains. *)
Lemma example_loop_rel (args : Args) (end_token : Tok) (enc : Encoded) (beg : Embedding)
    (output_batch : list (list Phrase)) (items : list (nat * Phrase)) (st st' : Vars) :
  for_each (example_step args end_token enc beg output_batch) items st = Ok st' ->
  (exists new, records st st' new) /\
  shows_at_most_one args st st' /\
  (exists evs, out st' = out st ++ evs /\ Forall (fun e => is_dialogue_log e = true) evs).
Proof.
  apply (for_each_rel (example_step args end_token enc beg output_batch)
           (fun a b =>
              (exists new, records a b new) /\
              shows_at_most_one args a b /\
              (exists evs, out b = out a ++ evs /\
                           Forall (fun e => is_dialogue_log e = true) evs))).
  - intros a. split; [exists []; apply records_nil|].
    split; [apply shows_at_most_one_refl|].
    exists []. rewrite app_nil_r. split; [reflexivity|constructor].
  - intros a b c ([n1 R1] & S1 & (e1 & O1 & F1)) ([n2 R2] & S2 & (e2 & O2 & F2)).
    split; [exists (n1 ++ n2); eapply records_trans; eassumption|].
    split; [eapply shows_at_most_one_trans; eassumption|].
    exists (e1 ++ e2). split; [rewrite O2, O1, app_assoc; reflexivity|].
    apply Forall_app. split; assumption.
  - intros x a b H. split; [eapply example_step_records; eassumption|].
    split; [eapply example_step_shows; eassumption|eapply example_step_out; eassumption].
Qed.

Lemma batch_collect_facts (args : Args) (end_token beg_token : Tok)
    (batch : list PhrasePair) (st st1 : Vars) :
  batch_collect args end_token beg_token batch st = Ok st1 ->
  net st1 = net st /\ optimiser st1 = optimiser st /\
  batch_idx st1 = batch_idx st + 1 /\ best_bleu st1 = best_bleu st /\
  accumulated st1 /\
  shows_at_most_one args st st1 /\
  (exists evs, out st1 = out st ++ evs /\ Forall (fun e => is_dialogue_log e = true) evs).
Proof.
  unfold batch_collect.
  destruct (pack_batch_no_out batch
              (net (set_grads (zero_grad (grads (set_batch_idx (batch_idx st + 1) st)))
                      (set_batch_idx (batch_idx st + 1) st))))
    as [[input_seq input_batch] output_batch].
  intros H. apply example_loop_rel in H.
  destruct H as ([new (F & R1 & R2 & R3 & R4 & _)] & S & O).
  destruct F as (F1 & F2 & _ & _ & F5 & F6).
  unfold shows_at_most_one in *. unfold accumulated.
  destruct st; simpl in *. rewrite R1.
  repeat split; assumption.
Qed.

(** ** Skipping and advantages (C2, C4) *)

(** C2.  With skipping enabled, an example whose greedy reward is strictly
    above 0.99 is not sampled (the generator state and the list of sample
    rewards are untouched), adds nothing to [net_policies], [net_actions] and
    [net_advantages], and raises the skipped-sample counter by exactly one. *)
Theorem skip_solved_example (args : Args) (end_token : Tok) (enc : Encoded) (beg : Embedding)
    (output_batch : list (list Phrase)) (idx : nat) (inp_idx : Phrase) (refs : list Phrase)
    (st : Vars) :
  nth_error output_batch idx = Some refs ->
  disable_skip args = false ->
  (SKIP_BLEU < greedy_reward (net st) end_token enc beg idx refs)%Q ->
  exists st',
    example_step args end_token enc beg output_batch (idx, inp_idx) st = Ok st' /\
    rng st' = rng st /\ bleus_sample st' = bleus_sample st /\
    recorded st' = recorded st /\
    net_policies st' = net_policies st /\
    net_actions st' = net_actions st /\
    net_advantages st' = net_advantages st /\
    skipped_samples st' = skipped_samples st + 1.
Proof.
  intros Hrefs Hskip Hhigh.
  destruct (example_step_cases args end_token enc beg output_batch idx inp_idx refs st Hrefs)
    as (st' & E & _ & _ & [Hs|Hs]).
  - exists st'. split; [exact E|].
    destruct Hs as (_ & _ & (_ & R1 & R2 & R3 & R4 & R5) & G & K & _).
    simpl in *. rewrite app_nil_r in *. repeat split; assumption.
  - destruct Hs as ([Hd|Hle] & _).
    + congruence.
    + exfalso. apply (Qlt_not_le _ _ Hhigh Hle).
Qed.

(** C4.  Every trajectory sampled for an example (there are [args.samples]
    of them unless the example is skipped) is an output of the stochastic
    decoder scored against the example's references, and the advantages
    appended for it are its reward minus the example's greedy reward, once
    per generated token.  Hence each of them is positive when the sampled
    reward is strictly above the greedy reward, negative when strictly below,
    and zero when the two are equal. *)
Theorem advantage_is_reward_gap (args : Args) (end_token : Tok) (enc : Encoded)
    (beg : Embedding) (output_batch : list (list Phrase)) (idx : nat) (inp_idx : Phrase)
    (refs : list Phrase) (st : Vars) :
  nth_error output_batch idx = Some refs ->
  let b := greedy_reward (net st) end_token enc beg idx refs in
  exists st' new,
    example_step args end_token enc beg output_batch (idx, inp_idx) st = Ok st' /\
    recorded st' = recorded st ++ new /\
    net_advantages st' = net_advantages st ++ concat (map advantages new) /\
    (disable_skip args = true \/ (b <= SKIP_BLEU)%Q ->
     length new = Z.to_nat (samples args)) /\
    Forall
      (fun t =>
         (exists g g',
            decode_chain_sampling (net st) (get_encoded_item enc idx) beg MAX_TOKENS
              end_token g
            = (t_logits t, t_tokens t, g')) /\
         t_reward t = calc_bleu_many (t_tokens t) (strip_first refs) /\
         advantages t = repeat (t_reward t - b)%Q (length (t_tokens t)) /\
         forall a, In a (advantages t) ->
           a = (t_reward t - b)%Q /\
           ((b < t_reward t)%Q -> (0 < a)%Q) /\
           ((t_reward t < b)%Q -> (a < 0)%Q) /\
           ((t_reward t == b)%Q -> (a == 0)%Q))
      new.
Proof.
  intros Hrefs b.
  destruct (example_step_cases args end_token enc beg output_batch idx inp_idx refs st Hrefs)
    as (st' & E & _ & _ & Hs).
  assert (Hnew : exists new,
             records st st' new /\
             (disable_skip args = true \/ (b <= SKIP_BLEU)%Q ->
              length new = Z.to_nat (samples args)) /\
             Forall
               (sampled_for (net st) end_token (get_encoded_item enc idx) beg
                  (strip_first refs) b) new).
  { destruct Hs as [Hs|Hs].
    - exists []. split; [apply Hs|]. split; [|constructor].
      destruct Hs as (Hd & Hhigh & _). intros [Hd'|Hle]; [congruence|].
      exfalso. apply (Qlt_not_le _ _ Hhigh Hle).
    - destruct Hs as (_ & new & R & L & S & _). exists new.
      split; [exact R|]. split; [intros _; exact L|exact S]. }
  destruct Hnew as (new & (_ & R1 & _ & _ & R4 & _) & L & S).
  exists st', new. repeat split; try assumption.
  eapply Forall_impl; [|exact S]. intros t (Hdec & Hb & Hr).
  assert (Hadv : advantages t = repeat (t_reward t - b)%Q (length (t_tokens t))).
  { unfold advantages, advantage. rewrite Hb. reflexivity. }
  repeat split; try assumption.
  - rewrite Hadv in H. apply repeat_spec in H. exact H.
  - intros Hlt. rewrite Hadv in H. apply repeat_spec in H. subst a.
    unfold Qminus. rewrite <- (Qplus_opp_r b). apply Qplus_lt_l. exact Hlt.
  - intros Hlt. rewrite Hadv in H. apply repeat_spec in H. subst a.
    unfold Qminus. rewrite <- (Qplus_opp_r b). apply Qplus_lt_l. exact Hlt.
  - intros Heq. rewrite Hadv in H. apply repeat_spec in H. subst a.
    rewrite Heq. unfold Qminus. apply Qplus_opp_r.
Qed.

(** ** The batch: accumulators, loss and update (C5, C1, C3) *)

Lemma length_concat_tokens (trajs : list Trajectory) :
  length (concat (map t_tokens trajs))
  = list_sum (map (fun t => length (t_tokens t)) trajs).
Proof.
  induction trajs as [|t trajs IH]; simpl; [reflexivity|].
  rewrite length_app, IH. reflexivity.
Qed.

Lemma length_concat_advantages (trajs : list Trajectory) :
  length (concat (map advantages trajs)) = length (concat (map t_tokens trajs)).
Proof.
  induction trajs as [|t trajs IH]; simpl; [reflexivity|].
  rewrite !length_app, IH. unfold advantages. rewrite repeat_length. reflexivity.
Qed.

(** C5.  When the loop over the examples of a batch is over, [net_policies]
    holds one entry per recorded sampled trajectory, the length of
    [net_actions] is the sum of the numbers of generated tokens of the
    recorded trajectories, and [net_advantages] is as long as [net_actions]. *)
Theorem accumulators_match_trajectories (args : Args) (end_token beg_token : Tok)
    (batch : list PhrasePair) (st st1 : Vars) :
  batch_collect args end_token beg_token batch st = Ok st1 ->
  net_policies st1 = map t_logits (recorded st1) /\
  length (net_actions st1)
  = list_sum (map (fun t => length (t_tokens t)) (recorded st1)) /\
  length (net_advantages st1) = length (net_actions st1).
Proof.
  intros H. destruct (batch_collect_facts _ _ _ _ _ _ H) as (_ & _ & _ & _ & A & _).
  destruct A as (A1 & A2 & A3). split; [exact A1|].
  rewrite A2, A3. split; [apply length_concat_tokens|apply length_concat_advantages].
Qed.

Lemma batch_update_empty (st : Vars) : net_policies st = [] -> batch_update st = Ok st.
Proof. intros H. unfold batch_update. rewrite H. reflexivity. Qed.

(** With a non-empty [net_policies] the batch ends with one optimiser step
    and the three tracked values. *)
Lemma batch_update_step (st : Vars) (loss : Scalar) :
  net_policies st <> [] ->
  loss_policy (net_policies st) (net_actions st) (net_advantages st) = Ok loss ->
  exists st',
    batch_update st = Ok st' /\
    (optimiser st', net st')
    = adam_step (optimiser st) (net st)
        (backward (net st) (net_policies st) (net_actions st) (net_advantages st) (grads st)) /\
    dial_shown st' = dial_shown st /\ best_bleu st' = best_bleu st /\
    out st' = out st ++
      [Track "advantage" (TVec (FloatTensor (net_advantages st))) (batch_idx st);
       Track "loss_policy" (TScalar loss) (batch_idx st);
       Track "loss_total" (TScalar loss) (batch_idx st)].
Proof.
  intros Hne Hloss. unfold batch_update. rewrite Hloss.
  destruct (net_policies st) as [|p ps] eqn:E; [contradiction|]. simpl bind.
  destruct st; simpl in *. subst net_policies0.
  destruct (adam_step optimiser0 net0
              (backward net0 (p :: ps) net_actions0 net_advantages0 grads0))
    as [o p'] eqn:Ea.
  eexists. split; [reflexivity|]. simpl. rewrite <- !app_assoc. simpl.
  repeat split.
Qed.

Lemma batch_update_facts (st st' : Vars) :
  batch_update st = Ok st' ->
  dial_shown st' = dial_shown st /\ best_bleu st' = best_bleu st /\
  exists evs,
    out st' = out st ++ evs /\ filter is_dialogue_log evs = [] /\
    filter is_best_save evs = [].
Proof.
  intros H. destruct (net_policies st) as [|p ps] eqn:E.
  - rewrite (batch_update_empty st E) in H. injection H as <-.
    repeat split. exists []. rewrite app_nil_r. repeat split.
  - destruct (loss_policy (net_policies st) (net_actions st) (net_advantages st))
      as [loss|e] eqn:El.
    + destruct (batch_update_step st loss) as (st2 & E2 & _ & D & B & O);
        [rewrite E; discriminate|exact El|].
      rewrite E2 in H. injection H as <-.
      split; [exact D|]. split; [exact B|]. eexists. split; [exact O|]. split; reflexivity.
    + unfold batch_update in H. rewrite E, <- E, El in H. discriminate.
Qed.

(** C1.  Whenever a batch reaches the loss computation ([net_policies] is not
    empty) and the recorded trajectories carry one distribution over the
    vocabulary per generated token, the loss is the negative mean, over every
    generated token of every recorded trajectory, of the token's advantage
    times the log-softmax probability of the generated token under the
    distribution of its own step; this is the value tracked as [loss_policy]
    and [loss_total] for the batch. *)
Theorem loss_is_negative_mean (args : Args) (end_token beg_token : Tok)
    (batch : list PhrasePair) (V : nat) (st st1 : Vars) :
  batch_collect args end_token beg_token batch st = Ok st1 ->
  net_policies st1 <> [] ->
  forallb (aligned V) (recorded st1) = true ->
  loss_policy (net_policies st1) (net_actions st1) (net_advantages st1)
  = Ok (mean_loss (recorded st1)) /\
  exists st2,
    batch_step args end_token beg_token batch st = Ok st2 /\
    out st2 = out st1 ++
      [Track "advantage" (TVec (FloatTensor (net_advantages st1))) (batch_idx st1);
       Track "loss_policy" (TScalar (mean_loss (recorded st1))) (batch_idx st1);
       Track "loss_total" (TScalar (mean_loss (recorded st1))) (batch_idx st1)].
Proof.
  intros H Hne Hal.
  destruct (batch_collect_facts _ _ _ _ _ _ H) as (_ & _ & _ & _ & A & _).
  destruct A as (A1 & A2 & A3).
  assert (Hrec : recorded st1 <> []).
  { intros E. apply Hne. rewrite A1, E. reflexivity. }
  assert (Hloss : loss_policy (net_policies st1) (net_actions st1) (net_advantages st1)
                  = Ok (mean_loss (recorded st1))).
  { rewrite A1, A2, A3. apply (loss_policy_flat V); assumption. }
  split; [exact Hloss|].
  destruct (batch_update_step st1 _ Hne Hloss) as (st2 & E2 & _ & _ & _ & O).
  exists st2. split; [|exact O].
  unfold batch_step. rewrite H. exact E2.
Qed.

(** C3.  A batch whose loop over the examples recorded no sampled trajectory
    ends there: the batch step returns the state reached after the loop, the
    parameters and the optimiser state are those from before the batch,
    nothing is tracked (the batch wrote diagnostic lines at most), and the
    loop over the batches goes on with the next batch. *)
Theorem empty_batch_no_update (args : Args) (end_token beg_token : Tok)
    (batch : list PhrasePair) (st st1 : Vars) :
  batch_collect args end_token beg_token batch st = Ok st1 ->
  recorded st1 = [] ->
  batch_step args end_token beg_token batch st = Ok st1 /\
  net st1 = net st /\ optimiser st1 = optimiser st /\
  batch_idx st1 = batch_idx st + 1 /\
  (exists evs, out st1 = out st ++ evs /\ filter is_track evs = []) /\
  forall rest,
    for_each (batch_step args end_token beg_token) (batch :: rest) st
    = for_each (batch_step args end_token beg_token) rest st1.
Proof.
  intros H Hrec.
  destruct (batch_collect_facts _ _ _ _ _ _ H) as (N & O & B & _ & A & _ & (evs & E & D)).
  destruct A as (A1 & _).
  assert (Hstep : batch_step args end_token beg_token batch st = Ok st1).
  { unfold batch_step. rewrite H. simpl. apply batch_update_empty.
    rewrite A1, Hrec. reflexivity. }
  repeat split; try assumption.
  - exists evs. split; [exact E|].
    apply dialogue_only_filter; [exact dialogue_not_track|exact D].
  - intros rest. simpl. rewrite Hstep. reflexivity.
Qed.

(** ** Evaluation (C10, C9) *)

Lemma run_test_fold (net : Params) (end_token : Tok) (l : list PhrasePair) (s : Q) (c : nat) :
  fold_left
    (fun (acc : Q * nat) (pair : PhrasePair) =>
       let '(bleu_sum, bleu_count) := acc in
       let '(p1, p2) := pair in
       let input_seq := pack_input p1 net in
       let enc := encode net input_seq in
       let '(_, tokens) :=
         decode_chain_argmax net enc (first_item input_seq) MAX_TOKENS end_token in
       let ref_indices := strip_first p2 in
       ((bleu_sum + calc_bleu_many tokens ref_indices)%Q, bleu_count + 1))
    l (s, c)
  = (fold_left Qplus (map (test_score net end_token) l) s, c + length l).
Proof.
  revert s c. induction l as [|[p1 p2] l IH]; intros s c; simpl.
  - rewrite Nat.add_0_r. reflexivity.
  - unfold test_score at 2. simpl.
    destruct (decode_chain_argmax net (encode net (pack_input p1 net))
                (first_item (pack_input p1 net)) MAX_TOKENS end_token) as [lg tokens].
    simpl. rewrite IH. f_equal. lia.
Qed.

Lemma run_test_eq (test_data : list PhrasePair) (net : Params) (end_token : Tok) :
  run_test test_data net end_token
  = py_div (Qsum (map (test_score net end_token) test_data)) (length test_data).
Proof.
  unfold run_test. rewrite run_test_fold. reflexivity.
Qed.

(** C10.  On a non-empty evaluation set [run_test] returns the arithmetic
    mean of the per-example scores; on an empty one the counter is still 0 at
    the final division, which raises [ZeroDivisionError]. *)
Theorem run_test_mean_needs_data (test_data : list PhrasePair) (net : Params)
    (end_token : Tok) :
  (test_data <> [] ->
   run_test test_data net end_token
   = Ok (Qsum (map (test_score net end_token) test_data)
         / inject_Z (Z.of_nat (length test_data)))%Q) /\
  (test_data = [] -> run_test test_data net end_token = Raise ZeroDivisionError).
Proof.
  rewrite run_test_eq. unfold py_div. split; intros H.
  - destruct test_data; [contradiction|reflexivity].
  - subst. reflexivity.
Qed.

Lemma epoch_end_eq (end_token : Tok) (test_data : list PhrasePair) (epoch : nat)
    (st st' : Vars) :
  epoch_end end_token test_data epoch st = Ok st' ->
  exists bleu_test ratio,
    run_test test_data (net st) end_token = Ok bleu_test /\
    py_div (inject_Z (Z.of_nat (skipped_samples st))) (total_samples st) = Ok ratio /\
    net st' = net st /\ optimiser st' = optimiser st /\ grads st' = grads st /\
    dial_shown st' = dial_shown st /\
    best_bleu st'
    = (if improves (best_bleu st) bleu_test then Some bleu_test else best_bleu st) /\
    out st' = out st ++
      [AddScalar "bleu_test" (Some bleu_test) (batch_idx st);
       AddScalar "bleu_argmax" (np_mean (bleus_argmax st)) (batch_idx st);
       AddScalar "bleu_sample" (np_mean (bleus_sample st)) (batch_idx st);
       AddScalar "skipped_samples" (Some ratio) (batch_idx st);
       AddScalar "epoch" (Some (inject_Z (Z.of_nat (batch_idx st)))) epoch;
       Info (MsgEpoch epoch bleu_test)]
      ++ (if improves (best_bleu st) bleu_test
          then [Info (MsgBest bleu_test); Save (net st) (BleuFile bleu_test epoch)]
          else [])
      ++ (if Nat.eqb (epoch mod 10) 0
          then [Save (net st) (EpochFile epoch (np_mean (bleus_argmax st)) bleu_test)]
          else []).
Proof.
  unfold epoch_end. set (periodic := Nat.eqb (epoch mod 10) 0). clearbody periodic.
  destruct (run_test test_data (net st) end_token) as [bleu_test|e]; [|discriminate].
  simpl bind.
  match goal with
  | |- context [py_div ?a ?b] => destruct (py_div a b) as [ratio|e] eqn:Er
  end; [|discriminate].
  simpl bind. intros H. injection H as <-.
  exists bleu_test, ratio. split; [reflexivity|].
  destruct st; simpl in *. split; [reflexivity|].
  unfold update_best. simpl.
  destruct (improves best_bleu0 bleu_test); destruct periodic; simpl;
    rewrite <- ?app_assoc; simpl; repeat split.
Qed.


(** ** The epoch: diagnostic flag and best-score tracker (C8, C7) *)

Lemma batch_step_rel (args : Args) (end_token beg_token : Tok)
    (batch : list PhrasePair) (st st' : Vars) :
  batch_step args end_token beg_token batch st = Ok st' ->
  best_bleu st' = best_bleu st /\
  shows_at_most_one args st st' /\
  (exists evs, out st' = out st ++ evs /\ filter is_best_save evs = []).
Proof.
  unfold batch_step.
  destruct (batch_collect args end_token beg_token batch st) as [st1|e] eqn:E1;
    [|discriminate].
  simpl bind. intros E2.
  destruct (batch_collect_facts _ _ _ _ _ _ E1) as (_ & _ & _ & B1 & _ & S1 & (e1 & O1 & D1)).
  destruct (batch_update_facts _ _ E2) as (D2 & B2 & (e2 & O2 & F2 & G2)).
  split; [congruence|]. split.
  - eapply shows_at_most_one_trans; [exact S1|].
    exists e2. split; [exact O2|]. left. split; assumption.
  - exists (e1 ++ e2). split; [rewrite O2, O1, app_assoc; reflexivity|].
    rewrite filter_app, G2, app_nil_r.
    apply dialogue_only_filter; [exact dialogue_not_best_save|exact D1].
Qed.

Lemma batch_loop_rel (args : Args) (end_token beg_token : Tok)
    (batches : list (list PhrasePair)) (st st' : Vars) :
  for_each (batch_step args end_token beg_token) batches st = Ok st' ->
  best_bleu st' = best_bleu st /\
  shows_at_most_one args st st' /\
  (exists evs, out st' = out st ++ evs /\ filter is_best_save evs = []).
Proof.
  apply (for_each_rel (batch_step args end_token beg_token)
           (fun a b =>
              best_bleu b = best_bleu a /\
              shows_at_most_one args a b /\
              (exists evs, out b = out a ++ evs /\ filter is_best_save evs = []))).
  - intros a. split; [reflexivity|]. split; [apply shows_at_most_one_refl|].
    exists []. rewrite app_nil_r. split; reflexivity.
  - intros a b c (B1 & S1 & (e1 & O1 & F1)) (B2 & S2 & (e2 & O2 & F2)).
    split; [congruence|]. split; [eapply shows_at_most_one_trans; eassumption|].
    exists (e1 ++ e2). split; [rewrite O2, O1, app_assoc; reflexivity|].
    rewrite filter_app, F1, F2. reflexivity.
  - intros x a b H. apply (batch_step_rel _ _ _ _ _ _ H).
Qed.

Lemma epoch_begin_facts (st : Vars) :
  dial_shown (epoch_begin st) = false /\ out (epoch_begin st) = out st /\
  best_bleu (epoch_begin st) = best_bleu st /\ net (epoch_begin st) = net st.
Proof.
  unfold epoch_begin. destruct (shuffle (train_data st) (rng st)) as [data g].
  destruct st; simpl. repeat split.
Qed.

Lemma epoch_step_inv (args : Args) (end_token beg_token : Tok)
    (test_data : list PhrasePair) (epoch : nat) (st st' : Vars) :
  epoch_step args end_token beg_token test_data epoch st = Ok st' ->
  exists s1,
    for_each (batch_step args end_token beg_token)
      (iterate_batches (train_data (epoch_begin st)) BATCH_SIZE) (epoch_begin st) = Ok s1 /\
    epoch_end end_token test_data epoch s1 = Ok st'.
Proof.
  unfold epoch_step.
  destruct (for_each (batch_step args end_token beg_token)
              (iterate_batches (train_data (epoch_begin st)) BATCH_SIZE) (epoch_begin st))
    as [s1|e]; [|discriminate].
  simpl bind. intros H. exists s1. split; [reflexivity|exact H].
Qed.

Lemma epoch_end_not_dialogue (bleu_test ratio : Q) (epoch : nat) (s : Vars) :
  filter is_dialogue_log
    ([AddScalar "bleu_test" (Some bleu_test) (batch_idx s);
      AddScalar "bleu_argmax" (np_mean (bleus_argmax s)) (batch_idx s);
      AddScalar "bleu_sample" (np_mean (bleus_sample s)) (batch_idx s);
      AddScalar "skipped_samples" (Some ratio) (batch_idx s);
      AddScalar "epoch" (Some (inject_Z (Z.of_nat (batch_idx s)))) epoch;
      Info (MsgEpoch epoch bleu_test)]
     ++ (if improves (best_bleu s) bleu_test
         then [Info (MsgBest bleu_test); Save (net s) (BleuFile bleu_test epoch)]
         else [])
     ++ (if Nat.eqb (epoch mod 10) 0
         then [Save (net s) (EpochFile epoch (np_mean (bleus_argmax s)) bleu_test)]
         else []))
  = [].
Proof.
  destruct (improves (best_bleu s) bleu_test); destruct (Nat.eqb (epoch mod 10) 0);
    reflexivity.
Qed.

Lemma epoch_end_best_saves (bleu_test ratio : Q) (epoch : nat) (s : Vars) :
  filter is_best_save
    ([AddScalar "bleu_test" (Some bleu_test) (batch_idx s);
      AddScalar "bleu_argmax" (np_mean (bleus_argmax s)) (batch_idx s);
      AddScalar "bleu_sample" (np_mean (bleus_sample s)) (batch_idx s);
      AddScalar "skipped_samples" (Some ratio) (batch_idx s);
      AddScalar "epoch" (Some (inject_Z (Z.of_nat (batch_idx s)))) epoch;
      Info (MsgEpoch epoch bleu_test)]
     ++ (if improves (best_bleu s) bleu_test
         then [Info (MsgBest bleu_test); Save (net s) (BleuFile bleu_test epoch)]
         else [])
     ++ (if Nat.eqb (epoch mod 10) 0
         then [Save (net s) (EpochFile epoch (np_mean (bleus_argmax s)) bleu_test)]
         else []))
  = if improves (best_bleu s) bleu_test
    then [Save (net s) (BleuFile bleu_test epoch)]
    else [].
Proof.
  destruct (improves (best_bleu s) bleu_test); destruct (Nat.eqb (epoch mod 10) 0);
    reflexivity.
Qed.

(** C8 (as amended).  The flag [dial_shown] is set to false at the start of
    every epoch, before the loop over the batches, and no batch resets it:
    once true it stays true through the following batches.  Hence at most
    one example per epoch has its input, references, greedy decode and
    samples logged, and at the start of a batch the flag is false only when
    no example was logged earlier in the epoch. *)
Theorem dial_shown_reset_per_epoch (args : Args) (end_token beg_token : Tok)
    (test_data : list PhrasePair) :
  (forall st, dial_shown (epoch_begin st) = false) /\
  (forall batch st st',
     batch_step args end_token beg_token batch st = Ok st' ->
     dial_shown st = true -> dial_shown st' = true) /\
  (forall k st s,
     before_batch args end_token beg_token k st = Ok s ->
     exists evs,
       out s = out st ++ evs /\
       ((dial_shown s = false /\ filter is_dialogue_log evs = []) \/
        (dial_shown s = true /\ one_dialogue args (filter is_dialogue_log evs)))) /\
  (forall epoch st st',
     epoch_step args end_token beg_token test_data epoch st = Ok st' ->
     exists evs,
       out st' = out st ++ evs /\
       (filter is_dialogue_log evs = [] \/
        one_dialogue args (filter is_dialogue_log evs))).
Proof.
  split; [intros st; apply epoch_begin_facts|].
  split.
  { intros batch st st' H Hd.
    destruct (batch_step_rel _ _ _ _ _ _ H) as (_ & (evs & _ & [[D _]|(D & _)]) & _);
      congruence. }
  split.
  { intros k st s H. unfold before_batch in H.
    destruct (batch_loop_rel _ _ _ _ _ _ H) as (_ & (evs & O & Hs) & _).
    destruct (epoch_begin_facts st) as (D0 & O0 & _).
    exists evs. split; [congruence|].
    destruct Hs as [[D F]|(_ & D & F)]; [left|right]; (split; [congruence|exact F]). }
  intros epoch st st' H.
  destruct (epoch_step_inv _ _ _ _ _ _ _ H) as (s1 & Hloop & Hend).
  destruct (batch_loop_rel _ _ _ _ _ _ Hloop) as (_ & (e1 & O1 & Hs) & _).
  destruct (epoch_end_eq _ _ _ _ _ Hend)
    as (bleu_test & ratio & _ & _ & _ & _ & _ & _ & _ & O2).
  destruct (epoch_begin_facts st) as (_ & O0 & _).
  eexists. split.
  - rewrite O2, O1, O0, <- app_assoc. reflexivity.
  - rewrite filter_app, (epoch_end_not_dialogue bleu_test ratio epoch s1), app_nil_r.
    destruct Hs as [[_ F]|(_ & _ & F)]; [left|right]; exact F.
Qed.

Lemma improves_iff (best : option Q) (bleu_test : Q) :
  improves best bleu_test = true <->
  best = None \/ exists b, best = Some b /\ (b < bleu_test)%Q.
Proof.
  destruct best as [b|]; simpl.
  - rewrite Qgtb_true. split.
    + intros H. right. exists b. split; [reflexivity|exact H].
    + intros [H|(b' & H & Hlt)]; [discriminate|]. injection H as ->. exact Hlt.
  - split; [intros _; left; reflexivity|reflexivity].
Qed.

Lemma epoch_step_best (args : Args) (end_token beg_token : Tok)
    (test_data : list PhrasePair) (epoch : nat) (st st' : Vars) :
  epoch_step args end_token beg_token test_data epoch st = Ok st' ->
  exists bleu_test evs,
    run_test test_data (net st') end_token = Ok bleu_test /\
    out st' = out st ++ evs /\
    best_bleu st'
    = (if improves (best_bleu st) bleu_test then Some bleu_test else best_bleu st) /\
    filter is_best_save evs
    = (if improves (best_bleu st) bleu_test
       then [Save (net st') (BleuFile bleu_test epoch)]
       else []).
Proof.
  intros H.
  destruct (epoch_step_inv _ _ _ _ _ _ _ H) as (s1 & Hloop & Hend).
  destruct (batch_loop_rel _ _ _ _ _ _ Hloop) as (B1 & _ & (e1 & O1 & F1)).
  destruct (epoch_end_eq _ _ _ _ _ Hend)
    as (bleu_test & ratio & Hr & _ & N & _ & _ & _ & B2 & O2).
  destruct (epoch_begin_facts st) as (_ & O0 & B0 & _).
  exists bleu_test. eexists. split; [rewrite N; exact Hr|].
  split; [rewrite O2, O1, O0, <- app_assoc; reflexivity|].
  rewrite B1, B0 in B2. split; [exact B2|].
  rewrite filter_app, F1, (epoch_end_best_saves bleu_test ratio epoch s1), B1, B0, N.
  reflexivity.
Qed.

(** C7.  The tracker is unset in the initial state.  Every epoch compares it
    once, after the evaluation, with the test metric: it becomes the metric
    exactly when it was unset or strictly below the metric, and exactly then
    one best-score checkpoint of the current parameters is requested;
    otherwise it keeps its value and no such checkpoint is requested.  So
    it never decreases and never becomes unset again across epochs. *)
Theorem best_bleu_tracker (args : Args) (end_token beg_token : Tok)
    (test_data : list PhrasePair) :
  (forall net0 opt0 grads0 rng0 data0,
     best_bleu (init_vars net0 opt0 grads0 rng0 data0) = None) /\
  (forall epoch st st',
     epoch_step args end_token beg_token test_data epoch st = Ok st' ->
     exists bleu_test evs,
       run_test test_data (net st') end_token = Ok bleu_test /\
       out st' = out st ++ evs /\
       ((best_bleu st = None \/ exists b, best_bleu st = Some b /\ (b < bleu_test)%Q) ->
        best_bleu st' = Some bleu_test /\
        filter is_best_save evs = [Save (net st') (BleuFile bleu_test epoch)]) /\
       ((exists b, best_bleu st = Some b /\ (bleu_test <= b)%Q) ->
        best_bleu st' = best_bleu st /\ filter is_best_save evs = [])) /\
  (forall n st st' b,
     run_epochs args end_token beg_token test_data n st = Ok st' ->
     best_bleu st = Some b ->
     exists b', best_bleu st' = Some b' /\ (b <= b')%Q).
Proof.
  split; [reflexivity|]. split.
  - intros epoch st st' H.
    destruct (epoch_step_best _ _ _ _ _ _ _ H) as (bleu_test & evs & Hr & O & B & F).
    exists bleu_test, evs. split; [exact Hr|]. split; [exact O|]. split.
    + intros Hup. apply improves_iff in Hup. rewrite Hup in B, F. split; assumption.
    + intros (b & Hb & Hle).
      assert (Hno : improves (best_bleu st) bleu_test = false).
      { rewrite Hb. simpl. apply Qgtb_false. exact Hle. }
      rewrite Hno in B, F. split; assumption.
  - intros n st st' b H. revert b. unfold run_epochs in H. revert H.
    apply (for_each_rel (epoch_step args end_token beg_token test_data)
             (fun a c => forall b, best_bleu a = Some b ->
                                   exists b', best_bleu c = Some b' /\ (b <= b')%Q)).
    + intros a b Hb. exists b. split; [exact Hb|apply Qle_refl].
    + intros a m c H1 H2 b Hb. destruct (H1 b Hb) as (b1 & Hb1 & L1).
      destruct (H2 b1 Hb1) as (b2 & Hb2 & L2). exists b2.
      split; [exact Hb2|eapply Qle_trans; eassumption].
    + intros epoch a c H b Hb.
      destruct (epoch_step_best _ _ _ _ _ _ _ H) as (bleu_test & evs & _ & _ & B & _).
      rewrite Hb in B. simpl in B.
      destruct (Qgtb_cases bleu_test b) as [[E L]|[E L]]; rewrite E in B.
      * exists bleu_test. split; [exact B|apply Qlt_le_weak, L].
      * exists b. split; [exact B|apply Qle_refl].
Qed.

End TrainerFacts.

(** ** The small model at work *)

Module ToyFacts.

Import Toy ToyRuns.

#[local] Existing Instance model.

Lemma similarity_range (g r : list Tok) :
  (Utils.min_score <= similarity g r)%Q /\ (similarity g r <= Utils.max_score)%Q.
Proof.
  unfold similarity, Utils.min_score, Utils.max_score.
  destruct g as [|x g]; [split; discriminate|].
  destruct (phrase_eqb (x :: g) r); [split; discriminate|].
  destruct r as [|y r]; [split; discriminate|].
  destruct (Nat.eqb x y); split; discriminate.
Qed.

Lemma similarity_empty (r : list Tok) : (similarity [] r == Utils.min_score)%Q.
Proof. reflexivity. Qed.

(** What the loop over the examples leaves for the batch [A; B; C]. *)
Example st1_accumulators :
  net_actions st1 = [0; 0; 1; 0; 2; 0; 0; 1] /\
  net_advantages st1
  = [0 - 0; 0 - 0; 1 - 0; 1 - 0; 0 - (1 # 2); 0 - (1 # 2); 0 - (1 # 2); 0 - (1 # 2)]%Q /\
  skipped_samples st1 = 1 /\ total_samples st1 = 3 /\ length (net_policies st1) = 4.
Proof. vm_compute. repeat split. Qed.

(** The scorer on a candidate and two references. *)
Lemma calc_bleu_many_witness :
  (exists r, In r [[0; 2]; [0; 1]] /\
     Qeq (Utils.calc_bleu_many similarity [0; 1] [[0; 2]; [0; 1]]) (similarity [0; 1] r)) /\
  (forall r, In r [[0; 2]; [0; 1]] ->
     Qle (similarity [0; 1] r) (Utils.calc_bleu_many similarity [0; 1] [[0; 2]; [0; 1]])) /\
  Utils.calc_bleu_many similarity [] [[0; 2]; [0; 1]] = Utils.min_score /\
  Qle Utils.min_score (Utils.calc_bleu_many similarity [0; 1] [[0; 2]; [0; 1]]) /\
  Qle (Utils.calc_bleu_many similarity [0; 1] [[0; 2]; [0; 1]]) Utils.max_score.
Proof.
  apply (UtilsFacts.calc_bleu_many_best_of_refs similarity similarity_range similarity_empty
           [0; 1] [[0; 2]; [0; 1]]).
  discriminate.
Defined.

(** Example A of the batch [A; B; C] is skipped. *)
Lemma skip_solved_example_witness :
  exists st',
    example_step (C:=model) args end_token enc_abc 0 output_abc (0, [2; 1]) st0 = Ok st' /\
    rng st' = rng st0 /\ bleus_sample st' = bleus_sample st0 /\
    recorded st' = recorded st0 /\
    net_policies st' = net_policies st0 /\
    net_actions st' = net_actions st0 /\
    net_advantages st' = net_advantages st0 /\
    skipped_samples st' = skipped_samples st0 + 1.
Proof.
  apply (skip_solved_example (C:=model) args end_token enc_abc 0 output_abc 0 [2; 1] [[0; 2; 1]] st0).
  - reflexivity.
  - reflexivity.
  - vm_compute. reflexivity.
Defined.

(** Example B of the batch [A; B; C] is sampled. *)
Lemma advantage_is_reward_gap_witness :
  let b := greedy_reward (C:=model) (net st0) end_token enc_abc 0 1 [[0; 1; 0]] in
  exists st' new,
    example_step (C:=model) args end_token enc_abc 0 output_abc (1, [0; 1]) st0 = Ok st' /\
    recorded st' = recorded st0 ++ new /\
    net_advantages st' = net_advantages st0 ++ concat (map advantages new) /\
    (disable_skip args = true \/ (b <= SKIP_BLEU)%Q ->
     length new = Z.to_nat (samples args)) /\
    Forall
      (fun t =>
         (exists g g',
            decode_chain_sampling (net st0) (get_encoded_item enc_abc 1) 0 MAX_TOKENS
              end_token g
            = (t_logits t, t_tokens t, g')) /\
         t_reward t = calc_bleu_many (t_tokens t) (strip_first [[0; 1; 0]]) /\
         advantages t = repeat (t_reward t - b)%Q (length (t_tokens t)) /\
         forall a, In a (advantages t) ->
           a = (t_reward t - b)%Q /\
           ((b < t_reward t)%Q -> (0 < a)%Q) /\
           ((t_reward t < b)%Q -> (a < 0)%Q) /\
           ((t_reward t == b)%Q -> (a == 0)%Q))
      new.
Proof.
  apply (advantage_is_reward_gap (C:=model) args end_token enc_abc 0 output_abc 1 [0; 1] [[0; 1; 0]] st0).
  reflexivity.
Defined.

Lemma accumulators_match_trajectories_witness :
  net_policies st1 = map t_logits (recorded st1) /\
  length (net_actions st1)
  = list_sum (map (fun t => length (t_tokens t)) (recorded st1)) /\
  length (net_advantages st1) = length (net_actions st1).
Proof.
  apply (accumulators_match_trajectories (C:=model) args end_token beg_token batch_abc st0 st1).
  vm_compute. reflexivity.
Defined.

Lemma loss_is_negative_mean_witness :
  loss_policy (net_policies st1) (net_actions st1) (net_advantages st1)
  = Ok (mean_loss (recorded st1)) /\
  exists st2,
    batch_step args end_token beg_token batch_abc st0 = Ok st2 /\
    out st2 = out st1 ++
      [Track "advantage" (TVec (FloatTensor (net_advantages st1))) (batch_idx st1);
       Track "loss_policy" (TScalar (mean_loss (recorded st1))) (batch_idx st1);
       Track "loss_total" (TScalar (mean_loss (recorded st1))) (batch_idx st1)].
Proof.
  apply (loss_is_negative_mean (C:=model) args end_token beg_token batch_abc VOCAB st0 st1).
  - vm_compute. reflexivity.
  - vm_compute. discriminate.
  - vm_compute. reflexivity.
Defined.

(** A batch made of the solved example A alone. *)
Lemma empty_batch_no_update_witness :
  batch_step args end_token beg_token [pair_a] st0 = Ok st_solved /\
  net st_solved = net st0 /\ optimiser st_solved = optimiser st0 /\
  batch_idx st_solved = batch_idx st0 + 1 /\
  (exists evs, out st_solved = out st0 ++ evs /\ filter is_track evs = []) /\
  forall rest,
    for_each (batch_step args end_token beg_token) ([pair_a] :: rest) st0
    = for_each (batch_step args end_token beg_token) rest st_solved.
Proof.
  apply (empty_batch_no_update (C:=model) args end_token beg_token [pair_a] st0 st_solved).
  - vm_compute. reflexivity.
  - reflexivity.
Defined.


Lemma run_test_mean_witness :
  run_test (C:=model) test_data (net st0) end_token
  = Ok (Qdiv (Qsum (map (test_score (C:=model) (net st0) end_token) test_data))
          (inject_Z (Z.of_nat (length test_data)))).
Proof.
  apply (proj1 (run_test_mean_needs_data (C:=model) test_data (net st0) end_token)).
  discriminate.
Defined.

(** The first epoch sets the tracker and requests one best-score checkpoint. *)
Lemma best_bleu_tracker_witness :
  exists bleu_test evs,
    run_test test_data (net st_epoch) end_token = Ok bleu_test /\
    out st_epoch = out st0 ++ evs /\
    ((best_bleu st0 = None \/ exists b, best_bleu st0 = Some b /\ (b < bleu_test)%Q) ->
     best_bleu st_epoch = Some bleu_test /\
     filter is_best_save evs = [Save (net st_epoch) (BleuFile bleu_test 0)]) /\
    ((exists b, best_bleu st0 = Some b /\ (bleu_test <= b)%Q) ->
     best_bleu st_epoch = best_bleu st0 /\ filter is_best_save evs = []).
Proof.
  apply (proj1 (proj2 (best_bleu_tracker (C:=model) args end_token beg_token test_data)) 0 st0 st_epoch).
  vm_compute. reflexivity.
Defined.

(** C8, against a reset per batch: with seventeen examples an epoch has two
    batches, the flag is false when the epoch starts, the first batch samples
    and logs an example, and at the start of the second batch the flag is
    true. *)
Lemma dial_shown_true_at_second_batch :
  length (iterate_batches (train_data (epoch_begin st17)) BATCH_SIZE) = 2 /\
  dial_shown (epoch_begin st17) = false /\
  exists s, before_batch args end_token beg_token 1 st17 = Ok s /\ dial_shown s = true.
Proof.
  split; [vm_compute; reflexivity|].
  split; [reflexivity|].
  eexists. split; [vm_compute; reflexivity|reflexivity].
Qed.

End ToyFacts.

(** * Further properties of the script *)

From Stdlib Require Import Lqa Qreals.

Close Scope Q_scope.
Close Scope R_scope.

(** ** The reverse vocabulary *)

Lemma dict_get_set_same {V : Type} (k : nat) (v : V) (d : Dict nat V) :
  dict_get Nat.eqb k (dict_set Nat.eqb k v d) = Some v.
Proof.
  induction d as [|[k' v'] d IH]; simpl.
  - rewrite Nat.eqb_refl. reflexivity.
  - destruct (Nat.eqb k k') eqn:E; simpl; rewrite E; [reflexivity|exact IH].
Qed.

Lemma dict_get_set_other {V : Type} (k k0 : nat) (v : V) (d : Dict nat V) :
  k0 <> k -> dict_get Nat.eqb k0 (dict_set Nat.eqb k v d) = dict_get Nat.eqb k0 d.
Proof.
  intros Hne. induction d as [|[k' v'] d IH]; simpl.
  - destruct (Nat.eqb k0 k) eqn:E; [apply Nat.eqb_eq in E; contradiction|reflexivity].
  - destruct (Nat.eqb k k') eqn:E; simpl.
    + apply Nat.eqb_eq in E. subst k'.
      destruct (Nat.eqb k0 k) eqn:E0; [apply Nat.eqb_eq in E0; contradiction|reflexivity].
    + rewrite IH. reflexivity.
Qed.

Lemma rev_fold_untouched (items : Dict string nat) (d : Dict nat string) (i : nat) :
  ~ In i (map snd items) ->
  dict_get Nat.eqb i
    (fold_left (fun d item => dict_set Nat.eqb (snd item) (fst item) d) items d)
  = dict_get Nat.eqb i d.
Proof.
  revert d. induction items as [|[w j] items IH]; intros d Hnot; simpl; [reflexivity|].
  simpl in Hnot. rewrite IH by tauto.
  apply dict_get_set_other. intros E. apply Hnot. left. symmetry. exact E.
Qed.

Lemma rev_fold_sound (items : Dict string nat) (d : Dict nat string) (i : nat) (w : string) :
  dict_get Nat.eqb i
    (fold_left (fun d item => dict_set Nat.eqb (snd item) (fst item) d) items d)
  = Some w ->
  In (w, i) items \/ dict_get Nat.eqb i d = Some w.
Proof.
  revert d. induction items as [|[w' j] items IH]; intros d H; simpl in *; [right; exact H|].
  destruct (IH _ H) as [Hin|Hget]; [left; right; exact Hin|].
  destruct (Nat.eq_dec i j) as [->|Hne].
  - rewrite dict_get_set_same in Hget. injection Hget as ->. left. left. reflexivity.
  - rewrite dict_get_set_other in Hget by exact Hne. right. exact Hget.
Qed.

Lemma rev_emb_dict_last_wins_aux (before after : Dict string nat) (w : string) (i : nat) :
  ~ In i (map snd after) ->
  dict_get Nat.eqb i (rev_emb_dict (before ++ (w, i) :: after)) = Some w.
Proof.
  intros Hnot. unfold rev_emb_dict. rewrite fold_left_app. simpl.
  rewrite rev_fold_untouched by exact Hnot. apply dict_get_set_same.
Qed.

(** X1.  When several words of the vocabulary carry the same index, the
    reverse vocabulary maps the index to the last of them in the order of
    [emb_dict.items()]; the earlier ones cannot be decoded any more. *)
Theorem rev_emb_dict_last_wins (before after : Dict string nat) (w : string) (i : nat) :
  ~ In i (map snd after) ->
  dict_get Nat.eqb i (rev_emb_dict (before ++ (w, i) :: after)) = Some w /\
  forall w', In (w', i) before -> w' <> w ->
    dict_get Nat.eqb i (rev_emb_dict (before ++ (w, i) :: after)) <> Some w'.
Proof.
  intros Hnot. split; [apply rev_emb_dict_last_wins_aux; exact Hnot|].
  intros w' _ Hne. rewrite (rev_emb_dict_last_wins_aux before after w i Hnot).
  intros E. injection E as E. apply Hne. symmetry. exact E.
Qed.

(** X2.  When no two words share an index, looking an index up in the
    reverse vocabulary yields a word exactly when the vocabulary maps that
    word to the index; an index of no word is a missing key. *)
Theorem rev_emb_dict_round_trip (emb_dict : Dict string nat) :
  NoDup (map snd emb_dict) ->
  forall w i,
    dict_get Nat.eqb i (rev_emb_dict emb_dict) = Some w <-> In (w, i) emb_dict.
Proof.
  intros Hnd w i. split.
  - intros H. unfold rev_emb_dict in H. apply rev_fold_sound in H.
    destruct H as [H|H]; [exact H|discriminate].
  - intros Hin. apply in_split in Hin. destruct Hin as (l1 & l2 & ->).
    apply rev_emb_dict_last_wins_aux.
    rewrite map_app in Hnd. simpl in Hnd. apply NoDup_remove_2 in Hnd.
    intros Hi. apply Hnd. apply in_or_app. right. exact Hi.
Qed.

(** ** Counters of a batch and of an epoch *)

Section TrainerMore.

Context {C : Collaborators}.

(** The update at the end of a batch leaves the counters of the epoch alone
    and writes tracked values only. *)
Lemma batch_update_frame (st st' : Vars) :
  batch_update st = Ok st' ->
  total_samples st' = total_samples st /\ skipped_samples st' = skipped_samples st /\
  bleus_argmax st' = bleus_argmax st /\ bleus_sample st' = bleus_sample st /\
  batch_idx st' = batch_idx st /\
  exists evs, out st' = out st ++ evs /\ Forall (fun e => is_track e = true) evs.
Proof.
  unfold batch_update. destruct (net_policies st) as [|p ps] eqn:E.
  - intros H. injection H as <-. repeat split.
    exists []. rewrite app_nil_r. split; [reflexivity|constructor].
  - destruct (loss_policy (p :: ps) (net_actions st) (net_advantages st)) as [loss|e];
      [|discriminate].
    simpl bind. destruct st; simpl in *. subst net_policies0.
    destruct (adam_step optimiser0 net0
                (backward net0 (p :: ps) net_actions0 net_advantages0 grads0))
      as [o p'].
    intros H. injection H as <-. simpl. repeat split.
    eexists. rewrite <- !app_assoc. simpl. split; [reflexivity|].
    repeat constructor.
Qed.

Lemma enumerate_length {A : Type} (l : list A) : length (enumerate l) = length l.
Proof.
  unfold enumerate. rewrite length_combine, length_seq. apply Nat.min_id.
Qed.

(** The loop over the examples counts every example once, as skipped or as
    sampled [args.samples] times. *)
Lemma example_loop_counts (args : Args) (end_token : Tok) (enc : Encoded) (beg : Embedding)
    (output_batch : list (list Phrase)) (items : list (nat * Phrase)) (st st' : Vars) :
  for_each (example_step args end_token enc beg output_batch) items st = Ok st' ->
  exists k,
    k <= length items /\
    total_samples st' = total_samples st + length items /\
    skipped_samples st' = skipped_samples st + k /\
    length (bleus_argmax st') = length (bleus_argmax st) + length items /\
    length (bleus_sample st')
    = length (bleus_sample st) + Z.to_nat (samples args) * (length items - k) /\
    length (recorded st')
    = length (recorded st) + Z.to_nat (samples args) * (length items - k) /\
    (disable_skip args = true -> k = 0).
Proof.
  revert st. induction items as [|[idx inp_idx] items IH]; intros st H;
    cbn [for_each] in H.
  - injection H as <-. exists 0. simpl. rewrite Nat.mul_0_r, !Nat.add_0_r.
    repeat split; auto.
  - destruct (example_step args end_token enc beg output_batch (idx, inp_idx) st)
      as [s1|e] eqn:E1; cbn [bind] in H; [|discriminate H].
    destruct (IH s1 H) as (k & Hk & T & K & A & B & R & D).
    destruct (example_step_ok_refs _ _ _ _ _ _ _ _ E1) as [refs Hrefs]. simpl in Hrefs.
    destruct (example_step_cases args end_token enc beg output_batch idx inp_idx refs st Hrefs)
      as (s1' & E1' & T1 & A1 & Hs).
    rewrite E1 in E1'. injection E1' as <-.
    assert (LA : length (bleus_argmax s1) = length (bleus_argmax st) + 1).
    { rewrite A1, length_app. reflexivity. }
    destruct Hs as [(Hd & _ & (_ & R1 & _ & _ & _ & B1) & _ & K1 & _)
                   |(_ & new & (_ & R1 & _ & _ & _ & B1) & L1 & _ & K1 & _)].
    + exists (S k). simpl length. rewrite app_nil_r in R1, B1.
      replace (S (length items) - S k) with (length items - k) by lia.
      repeat split; try lia; try congruence.
    + exists k. simpl length.
      replace (S (length items) - k) with (S (length items - k)) by lia.
      rewrite Nat.mul_succ_r.
      assert (LB : length (bleus_sample s1)
                   = length (bleus_sample st) + Z.to_nat (samples args)).
      { rewrite B1, length_app, length_map, L1. reflexivity. }
      assert (LR : length (recorded s1) = length (recorded st) + Z.to_nat (samples args)).
      { rewrite R1, length_app, L1. reflexivity. }
      repeat split; try lia. exact D.
Qed.

(** X3.  For one batch: every example handed over by [pack_batch_no_out] is
    counted in [total_samples]; the skipped ones are counted in
    [skipped_samples]; each of the others leaves [args.samples] entries in
    [net_policies].  With skipping disabled no example is skipped. *)
Theorem batch_accounting (args : Args) (end_token beg_token : Tok)
    (batch : list PhrasePair) (st st1 : Vars) :
  batch_collect args end_token beg_token batch st = Ok st1 ->
  exists k,
    k <= length (input_batch_of batch st) /\
    total_samples st1 = total_samples st + length (input_batch_of batch st) /\
    skipped_samples st1 = skipped_samples st + k /\
    length (net_policies st1)
    = Z.to_nat (samples args) * (length (input_batch_of batch st) - k) /\
    (disable_skip args = true -> k = 0).
Proof.
  intros H.
  destruct (batch_collect_facts _ _ _ _ _ _ H) as (_ & _ & _ & _ & (A1 & _) & _).
  unfold batch_collect in H. unfold input_batch_of.
  change (net (set_grads (zero_grad (grads (set_batch_idx (batch_idx st + 1) st)))
                 (set_batch_idx (batch_idx st + 1) st))) with (net st) in H.
  destruct (pack_batch_no_out batch (net st)) as [[input_seq input_batch] output_batch].
  apply example_loop_counts in H. destruct H as (k & Hk & T & K & _ & _ & R & D).
  rewrite enumerate_length in *.
  exists k. rewrite A1, length_map. simpl snd. simpl fst.
  destruct st; simpl in *. repeat split; assumption.
Qed.

Lemma batch_step_counts (args : Args) (end_token beg_token : Tok)
    (batch : list PhrasePair) (st st' : Vars) :
  batch_step args end_token beg_token batch st = Ok st' ->
  exists n k,
    k <= n /\
    total_samples st' = total_samples st + n /\
    skipped_samples st' = skipped_samples st + k /\
    length (bleus_argmax st') = length (bleus_argmax st) + n /\
    length (bleus_sample st')
    = length (bleus_sample st) + Z.to_nat (samples args) * (n - k).
Proof.
  unfold batch_step.
  destruct (batch_collect args end_token beg_token batch st) as [st1|e] eqn:E1;
    [|discriminate].
  simpl bind. intros E2.
  destruct (batch_update_frame _ _ E2) as (T2 & K2 & A2 & B2 & _).
  unfold batch_collect in E1.
  destruct (pack_batch_no_out batch
              (net (set_grads (zero_grad (grads (set_batch_idx (batch_idx st + 1) st)))
                      (set_batch_idx (batch_idx st + 1) st))))
    as [[input_seq input_batch] output_batch].
  apply example_loop_counts in E1. destruct E1 as (k & Hk & T & K & A & B & _).
  exists (length (enumerate input_batch)), k.
  rewrite T2, K2, A2, B2. destruct st; simpl in *. repeat split; assumption.
Qed.

Lemma batch_loop_counts (args : Args) (end_token beg_token : Tok)
    (batches : list (list PhrasePair)) (st st' : Vars) :
  for_each (batch_step args end_token beg_token) batches st = Ok st' ->
  exists n k,
    k <= n /\
    total_samples st' = total_samples st + n /\
    skipped_samples st' = skipped_samples st + k /\
    length (bleus_argmax st') = length (bleus_argmax st) + n /\
    length (bleus_sample st')
    = length (bleus_sample st) + Z.to_nat (samples args) * (n - k).
Proof.
  apply (for_each_rel (batch_step args end_token beg_token)
           (fun a b =>
              exists n k,
                k <= n /\
                total_samples b = total_samples a + n /\
                skipped_samples b = skipped_samples a + k /\
                length (bleus_argmax b) = length (bleus_argmax a) + n /\
                length (bleus_sample b)
                = length (bleus_sample a) + Z.to_nat (samples args) * (n - k))).
  - intros a. exists 0, 0. simpl. rewrite Nat.mul_0_r, !Nat.add_0_r.
    repeat split; auto.
  - intros a b c (n1 & k1 & H1 & T1 & K1 & A1 & B1) (n2 & k2 & H2 & T2 & K2 & A2 & B2).
    exists (n1 + n2), (k1 + k2).
    replace (n1 + n2 - (k1 + k2)) with ((n1 - k1) + (n2 - k2)) by lia.
    rewrite Nat.mul_add_distr_l. repeat split; lia.
  - intros x a b H. apply (batch_step_counts _ _ _ _ _ _ H).
Qed.

Lemma epoch_begin_counters (st : Vars) :
  total_samples (epoch_begin st) = 0 /\ skipped_samples (epoch_begin st) = 0 /\
  bleus_argmax (epoch_begin st) = [] /\ bleus_sample (epoch_begin st) = [] /\
  batch_idx (epoch_begin st) = batch_idx st /\
  optimiser (epoch_begin st) = optimiser st.
Proof.
  unfold epoch_begin. destruct (shuffle (train_data st) (rng st)) as [data g].
  destruct st; simpl. repeat split.
Qed.

Lemma epoch_end_frame (end_token : Tok) (test_data : list PhrasePair) (epoch : nat)
    (st st' : Vars) :
  epoch_end end_token test_data epoch st = Ok st' ->
  total_samples st' = total_samples st /\ skipped_samples st' = skipped_samples st /\
  bleus_argmax st' = bleus_argmax st /\ bleus_sample st' = bleus_sample st /\
  batch_idx st' = batch_idx st.
Proof.
  unfold epoch_end. set (periodic := Nat.eqb (epoch mod 10) 0). clearbody periodic.
  destruct (run_test test_data (net st) end_token) as [bleu_test|e]; [|discriminate].
  simpl bind.
  match goal with
  | |- context [py_div ?a ?b] => destruct (py_div a b) as [ratio|e]
  end; [|discriminate].
  simpl bind. intros H. injection H as <-.
  destruct st; simpl. unfold update_best. simpl.
  destruct (improves best_bleu0 bleu_test); destruct periodic; simpl; repeat split.
Qed.

Lemma py_div_ok (a : Q) (b : nat) (r : Q) :
  py_div a b = Ok r -> b <> 0 /\ r = (a / inject_Z (Z.of_nat b))%Q.
Proof.
  unfold py_div. destruct (Nat.eqb b 0) eqn:E; [discriminate|].
  intros H. injection H as <-. apply Nat.eqb_neq in E. split; [exact E|reflexivity].
Qed.

Lemma ratio_in_unit (k n : nat) :
  k <= n -> n <> 0 ->
  (0 <= inject_Z (Z.of_nat k) / inject_Z (Z.of_nat n))%Q /\
  (inject_Z (Z.of_nat k) / inject_Z (Z.of_nat n) <= 1)%Q.
Proof.
  intros Hk Hn.
  assert (Hpos : (0 < inject_Z (Z.of_nat n))%Q).
  { change 0%Q with (inject_Z 0). rewrite <- Zlt_Qlt. lia. }
  split.
  - apply Qle_shift_div_l; [exact Hpos|]. rewrite Qmult_0_l.
    change 0%Q with (inject_Z 0). rewrite <- Zle_Qle. lia.
  - apply Qle_shift_div_r; [exact Hpos|]. rewrite Qmult_1_l.
    rewrite <- Zle_Qle. lia.
Qed.

(** X4.  At the end of an epoch at least one example was counted, the skipped
    ones are among the counted ones, there is one greedy reward per counted
    example and [args.samples] sample rewards per example that was not
    skipped; the value written under [skipped_samples] is the share of
    skipped examples, between 0 and 1. *)
Theorem epoch_accounting (args : Args) (end_token beg_token : Tok)
    (test_data : list PhrasePair) (epoch : nat) (st st' : Vars) :
  epoch_step args end_token beg_token test_data epoch st = Ok st' ->
  0 < total_samples st' /\
  skipped_samples st' <= total_samples st' /\
  length (bleus_argmax st') = total_samples st' /\
  length (bleus_sample st')
  = Z.to_nat (samples args) * (total_samples st' - skipped_samples st') /\
  let ratio :=
    (inject_Z (Z.of_nat (skipped_samples st')) / inject_Z (Z.of_nat (total_samples st')))%Q in
  In (AddScalar "skipped_samples" (Some ratio) (batch_idx st')) (out st') /\
  (0 <= ratio)%Q /\ (ratio <= 1)%Q.
Proof.
  intros H.
  destruct (epoch_step_inv _ _ _ _ _ _ _ H) as (s1 & Hloop & Hend).
  destruct (batch_loop_counts _ _ _ _ _ _ Hloop) as (n & k & Hk & T & K & A & B).
  destruct (epoch_begin_counters st) as (T0 & K0 & A0 & B0 & _).
  rewrite T0, K0, A0, B0 in *. simpl in *.
  destruct (epoch_end_frame _ _ _ _ _ Hend) as (T2 & K2 & A2 & B2 & I2).
  destruct (epoch_end_eq _ _ _ _ _ Hend)
    as (bleu_test & ratio & _ & Hr & _ & _ & _ & _ & _ & O).
  apply py_div_ok in Hr. destruct Hr as [Hn ->].
  rewrite T2, K2, A2, B2, I2, T, K in *.
  split; [lia|]. split; [lia|]. split; [exact A|]. split; [exact B|].
  cbv zeta. split.
  - rewrite O. apply in_or_app. right. simpl. right. right. right. left. reflexivity.
  - apply ratio_in_unit; lia.
Qed.

(** X5.  [batch_idx] goes up by one for every batch of the epoch, whether the
    batch led to an update or was abandoned, and the value written under
    [epoch] is this count. *)
Theorem batch_idx_counts_batches (args : Args) (end_token beg_token : Tok)
    (test_data : list PhrasePair) (epoch : nat) (st st' : Vars) :
  epoch_step args end_token beg_token test_data epoch st = Ok st' ->
  batch_idx st'
  = batch_idx st + length (iterate_batches (train_data (epoch_begin st)) BATCH_SIZE) /\
  In (AddScalar "epoch" (Some (inject_Z (Z.of_nat (batch_idx st')))) epoch) (out st').
Proof.
  intros H.
  destruct (epoch_step_inv _ _ _ _ _ _ _ H) as (s1 & Hloop & Hend).
  destruct (epoch_end_frame _ _ _ _ _ Hend) as (_ & _ & _ & _ & I2).
  destruct (epoch_end_eq _ _ _ _ _ Hend)
    as (bleu_test & ratio & _ & _ & _ & _ & _ & _ & _ & O).
  destruct (epoch_begin_counters st) as (_ & _ & _ & _ & I0 & _).
  assert (Hcount : forall batches a b,
             for_each (batch_step args end_token beg_token) batches a = Ok b ->
             batch_idx b = batch_idx a + length batches).
  { induction batches as [|x batches IH]; intros a b Hb; cbn [for_each] in Hb.
    - injection Hb as <-. simpl. lia.
    - destruct (batch_step args end_token beg_token x a) as [m|e] eqn:Em;
        cbn [bind] in Hb; [|discriminate Hb].
      rewrite (IH _ _ Hb). unfold batch_step in Em.
      destruct (batch_collect args end_token beg_token x a) as [m1|e] eqn:E1;
        cbn [bind] in Em; [|discriminate Em].
      destruct (batch_collect_facts _ _ _ _ _ _ E1) as (_ & _ & I1 & _).
      destruct (batch_update_frame _ _ Em) as (_ & _ & _ & _ & I3 & _).
      simpl. lia. }
  split.
  - rewrite I2, (Hcount _ _ _ Hloop), I0. reflexivity.
  - rewrite O, I2. apply in_or_app. right. simpl. do 4 right. left. reflexivity.
Qed.

(** ** Exceptions of an epoch and of a batch *)

Lemma py_div_raises (a : Q) (b : nat) (e : Exn) :
  py_div a b = Raise e -> e = ZeroDivisionError /\ b = 0.
Proof.
  unfold py_div. destruct (Nat.eqb b 0) eqn:E; [|discriminate].
  intros H. injection H as <-. apply Nat.eqb_eq in E. split; [reflexivity|exact E].
Qed.

Lemma epoch_end_raises (end_token : Tok) (test_data : list PhrasePair) (epoch : nat)
    (st : Vars) :
  test_data = [] \/ total_samples st = 0 ->
  epoch_end end_token test_data epoch st = Raise ZeroDivisionError.
Proof.
  intros H. unfold epoch_end. rewrite run_test_eq.
  destruct (py_div (Qsum (map (test_score (net st) end_token) test_data)) (length test_data))
    as [bleu_test|e] eqn:E.
  - destruct H as [->|H0]; [discriminate E|].
    simpl bind. destruct st; simpl in *. subst total_samples0. reflexivity.
  - apply py_div_raises in E. destruct E as [-> _]. reflexivity.
Qed.

Lemma epoch_end_returns (end_token : Tok) (test_data : list PhrasePair) (epoch : nat)
    (st : Vars) :
  test_data <> [] -> total_samples st <> 0 ->
  exists st', epoch_end end_token test_data epoch st = Ok st'.
Proof.
  intros Hd Ht. unfold epoch_end. rewrite run_test_eq.
  set (periodic := Nat.eqb (epoch mod 10) 0). clearbody periodic.
  destruct test_data as [|p test_data]; [contradiction|].
  unfold py_div at 1. simpl Nat.eqb. cbv iota. simpl bind.
  destruct st; simpl in *.
  destruct total_samples0 as [|n]; [contradiction|].
  unfold py_div. simpl Nat.eqb. cbv iota. simpl bind. eexists. reflexivity.
Qed.

(** X6.  The end of an epoch raises [ZeroDivisionError] exactly when the
    evaluation set is empty or no example was counted during the epoch, and
    returns otherwise; in particular an epoch without any batch (no training
    phrase) always ends in [ZeroDivisionError], whatever the evaluation set. *)
Theorem epoch_needs_examples (args : Args) (end_token beg_token : Tok)
    (test_data : list PhrasePair) (epoch : nat) :
  (forall st, test_data = [] \/ total_samples st = 0 ->
              epoch_end end_token test_data epoch st = Raise ZeroDivisionError) /\
  (forall st, test_data <> [] -> total_samples st <> 0 ->
              exists st', epoch_end end_token test_data epoch st = Ok st') /\
  (forall st, iterate_batches (train_data (epoch_begin st)) BATCH_SIZE = [] ->
              epoch_step args end_token beg_token test_data epoch st
              = Raise ZeroDivisionError).
Proof.
  split; [intros st; apply epoch_end_raises|].
  split; [intros st; apply epoch_end_returns|].
  intros st H. unfold epoch_step. rewrite H. cbn [for_each bind].
  apply epoch_end_raises. right. apply epoch_begin_counters.
Qed.

Lemma example_loop_index (args : Args) (end_token : Tok) (enc : Encoded) (beg : Embedding)
    (output_batch : list (list Phrase)) (l : list Phrase) :
  forall k st,
    (k + length l <= length output_batch ->
     exists st',
       for_each (example_step args end_token enc beg output_batch)
         (combine (seq k (length l)) l) st = Ok st') /\
    (0 < length l -> length output_batch < k + length l ->
     for_each (example_step args end_token enc beg output_batch)
       (combine (seq k (length l)) l) st = Raise IndexError).
Proof.
  induction l as [|x l IH]; intros k st.
  - split; [intros _; exists st; reflexivity|]. simpl. intros H. inversion H.
  - simpl length. simpl seq. simpl combine. cbn [for_each].
    destruct (nth_error output_batch k) as [refs|] eqn:En.
    + destruct (example_step_cases args end_token enc beg output_batch k x refs st En)
        as (s1 & E1 & _).
      rewrite E1. cbn [bind]. destruct (IH (S k) s1) as [IH1 IH2].
      assert (Hk : k < length output_batch).
      { apply nth_error_Some. rewrite En. discriminate. }
      split; [intros H; apply IH1; lia|].
      intros _ H. apply IH2; [|lia]. destruct l; simpl in *; lia.
    + assert (Hr : example_step args end_token enc beg output_batch (k, x) st
                   = Raise IndexError).
      { unfold example_step. rewrite En. reflexivity. }
      rewrite Hr. cbn [bind]. apply nth_error_None in En.
      split; [intros H; lia|intros _ _; reflexivity].
Qed.

(** X7.  The loop over the examples of a batch returns when [pack_batch_no_out]
    hands over at least as many reference lists as input phrases, and
    raises [IndexError] when it hands over fewer. *)
Theorem batch_collect_index_error (args : Args) (end_token beg_token : Tok)
    (batch : list PhrasePair) (st : Vars) :
  (length (input_batch_of batch st) <= length (output_batch_of batch st) ->
   exists st1, batch_collect args end_token beg_token batch st = Ok st1) /\
  (length (output_batch_of batch st) < length (input_batch_of batch st) ->
   batch_collect args end_token beg_token batch st = Raise IndexError).
Proof.
  unfold batch_collect, input_batch_of, output_batch_of.
  change (net (set_grads (zero_grad (grads (set_batch_idx (batch_idx st + 1) st)))
                 (set_batch_idx (batch_idx st + 1) st))) with (net st).
  destruct (pack_batch_no_out batch (net st)) as [[input_seq input_batch] output_batch].
  simpl fst. simpl snd. unfold enumerate.
  match goal with
  | |- context [for_each ?body (combine (seq 0 (length input_batch)) input_batch) ?s] =>
      destruct (example_loop_index args end_token
                  (encode (net st) input_seq) (emb (net st) beg_token)
                  output_batch input_batch 0 s) as [H1 H2]
  end.
  split; intros H; [apply H1; exact H|apply H2; simpl; lia].
Qed.

(** ** The update of a batch *)

Lemma batch_collect_grads (args : Args) (end_token beg_token : Tok)
    (batch : list PhrasePair) (st st1 : Vars) :
  batch_collect args end_token beg_token batch st = Ok st1 ->
  grads st1 = zero_grad (grads st).
Proof.
  unfold batch_collect.
  destruct (pack_batch_no_out batch
              (net (set_grads (zero_grad (grads (set_batch_idx (batch_idx st + 1) st)))
                      (set_batch_idx (batch_idx st + 1) st))))
    as [[input_seq input_batch] output_batch].
  intros H. apply example_loop_rel in H.
  destruct H as ([new (F & _)] & _). destruct F as (_ & _ & G & _).
  destruct st; simpl in *. exact G.
Qed.

(** X8.  A batch that recorded aligned trajectories makes exactly one optimiser
    step, from the parameters and optimiser state it started with, on the
    gradients of its own loss accumulated onto freshly zeroed gradients:
    the gradients left by earlier batches never enter the update. *)
Theorem update_uses_fresh_gradients (args : Args) (end_token beg_token : Tok)
    (batch : list PhrasePair) (V : nat) (st st1 : Vars) :
  batch_collect args end_token beg_token batch st = Ok st1 ->
  net_policies st1 <> [] ->
  forallb (aligned V) (recorded st1) = true ->
  exists st2,
    batch_step args end_token beg_token batch st = Ok st2 /\
    (optimiser st2, net st2)
    = adam_step (optimiser st) (net st)
        (backward (net st) (net_policies st1) (net_actions st1) (net_advantages st1)
           (zero_grad (grads st))).
Proof.
  intros H Hne Hal.
  destruct (batch_collect_facts _ _ _ _ _ _ H) as (N & O & _ & _ & (A1 & A2 & A3) & _).
  assert (Hrec : recorded st1 <> []).
  { intros E. apply Hne. rewrite A1, E. reflexivity. }
  assert (Hloss : loss_policy (net_policies st1) (net_actions st1) (net_advantages st1)
                  = Ok (mean_loss (recorded st1))).
  { rewrite A1, A2, A3. apply (loss_policy_flat V); assumption. }
  destruct (batch_update_step st1 _ Hne Hloss) as (st2 & E2 & U & _).
  exists st2. split.
  - unfold batch_step. rewrite H. exact E2.
  - rewrite U, N, O, (batch_collect_grads _ _ _ _ _ _ H). reflexivity.
Qed.

(** ** What the batches never write *)

Lemma only_filter (p q : Event -> bool) (evs : list Event) :
  (forall e, q e = true -> p e = false) ->
  Forall (fun e => q e = true) evs -> filter p evs = [].
Proof.
  intros Hp H. induction H as [|e evs He _ IH]; simpl; [reflexivity|].
  rewrite (Hp e He). exact IH.
Qed.

Lemma test_metrics_app (e1 e2 : list Event) :
  test_metrics (e1 ++ e2) = test_metrics e1 ++ test_metrics e2.
Proof. unfold test_metrics. apply flat_map_app. Qed.

Lemma test_metrics_none (q : Event -> bool) (evs : list Event) :
  (forall tag v step, q (AddScalar tag v step) = false) ->
  Forall (fun e => q e = true) evs -> test_metrics evs = [].
Proof.
  intros Hq H. induction H as [|e evs He _ IH]; simpl; [reflexivity|].
  destruct e as [m|tag v step|name v i|sd f]; simpl; try exact IH.
  rewrite Hq in He. discriminate.
Qed.

(** A batch writes diagnostic lines and tracked values only: no scalar of
    the summary writer and no checkpoint. *)
Lemma batch_step_quiet (args : Args) (end_token beg_token : Tok)
    (batch : list PhrasePair) (st st' : Vars) :
  batch_step args end_token beg_token batch st = Ok st' ->
  exists evs,
    out st' = out st ++ evs /\ test_metrics evs = [] /\ filter is_epoch_save evs = [].
Proof.
  unfold batch_step.
  destruct (batch_collect args end_token beg_token batch st) as [st1|e] eqn:E1;
    [|discriminate].
  simpl bind. intros E2.
  destruct (batch_collect_facts _ _ _ _ _ _ E1) as (_ & _ & _ & _ & _ & _ & (e1 & O1 & D1)).
  destruct (batch_update_frame _ _ E2) as (_ & _ & _ & _ & _ & (e2 & O2 & D2)).
  exists (e1 ++ e2). split; [rewrite O2, O1, app_assoc; reflexivity|].
  rewrite test_metrics_app, filter_app.
  rewrite (test_metrics_none is_dialogue_log e1), (test_metrics_none is_track e2);
    try assumption; try reflexivity.
  rewrite (only_filter is_epoch_save is_dialogue_log e1),
    (only_filter is_epoch_save is_track e2); try assumption.
  - split; reflexivity.
  - intros e He. destruct e; simpl in *; congruence.
  - intros e He. destruct e as [m| | |]; simpl in *; try congruence.
Qed.

Lemma batch_loop_quiet (args : Args) (end_token beg_token : Tok)
    (batches : list (list PhrasePair)) (st st' : Vars) :
  for_each (batch_step args end_token beg_token) batches st = Ok st' ->
  exists evs,
    out st' = out st ++ evs /\ test_metrics evs = [] /\ filter is_epoch_save evs = [].
Proof.
  apply (for_each_rel (batch_step args end_token beg_token)
           (fun a b =>
              exists evs,
                out b = out a ++ evs /\ test_metrics evs = [] /\
                filter is_epoch_save evs = [])).
  - intros a. exists []. rewrite app_nil_r. repeat split.
  - intros a b c (e1 & O1 & M1 & S1) (e2 & O2 & M2 & S2).
    exists (e1 ++ e2). split; [rewrite O2, O1, app_assoc; reflexivity|].
    rewrite test_metrics_app, filter_app, M1, M2, S1, S2. split; reflexivity.
  - intros x a b H. apply (batch_step_quiet _ _ _ _ _ _ H).
Qed.

Lemma epoch_end_out (end_token : Tok) (test_data : list PhrasePair) (epoch : nat)
    (st st' : Vars) :
  epoch_end end_token test_data epoch st = Ok st' ->
  exists bleu_test ratio,
    run_test test_data (net st) end_token = Ok bleu_test /\
    net st' = net st /\ optimiser st' = optimiser st /\
    best_bleu st'
    = (if improves (best_bleu st) bleu_test then Some bleu_test else best_bleu st) /\
    out st' = out st ++ epoch_end_events st epoch bleu_test ratio.
Proof.
  intros H. destruct (epoch_end_eq _ _ _ _ _ H)
    as (bleu_test & ratio & Hr & _ & N & O & _ & _ & B & Hout).
  exists bleu_test, ratio. repeat split; assumption.
Qed.

Lemma epoch_end_events_facts (st : Vars) (epoch : nat) (bleu_test ratio : Q) :
  test_metrics (epoch_end_events st epoch bleu_test ratio) = [bleu_test] /\
  filter is_track (epoch_end_events st epoch bleu_test ratio) = [] /\
  filter is_epoch_save (epoch_end_events st epoch bleu_test ratio)
  = (if Nat.eqb (epoch mod 10) 0
     then [Save (net st) (EpochFile epoch (np_mean (bleus_argmax st)) bleu_test)]
     else []).
Proof.
  unfold epoch_end_events.
  destruct (np_mean (bleus_argmax st)); destruct (np_mean (bleus_sample st));
    destruct (improves (best_bleu st) bleu_test); destruct (Nat.eqb (epoch mod 10) 0);
    repeat split; reflexivity.
Qed.

(** ** Checkpoints and the best score over a run *)

(** X9.  A periodic checkpoint is requested in exactly the epochs whose number is
    a multiple of 10, whether or not the test metric improved; it holds the
    parameters the epoch ends with and is named after the epoch, the mean
    greedy reward of the epoch and the test metric of those parameters. *)
Theorem periodic_checkpoint (args : Args) (end_token beg_token : Tok)
    (test_data : list PhrasePair) (epoch : nat) (st st' : Vars) :
  epoch_step args end_token beg_token test_data epoch st = Ok st' ->
  exists evs bleu_test,
    out st' = out st ++ evs /\
    run_test test_data (net st') end_token = Ok bleu_test /\
    filter is_epoch_save evs
    = (if Nat.eqb (epoch mod 10) 0
       then [Save (net st') (EpochFile epoch (np_mean (bleus_argmax st')) bleu_test)]
       else []).
Proof.
  intros H.
  destruct (epoch_step_inv _ _ _ _ _ _ _ H) as (s1 & Hloop & Hend).
  destruct (batch_loop_quiet _ _ _ _ _ _ Hloop) as (e1 & O1 & _ & S1).
  destruct (epoch_end_out _ _ _ _ _ Hend) as (bleu_test & ratio & Hr & N & _ & _ & O2).
  destruct (epoch_end_frame _ _ _ _ _ Hend) as (_ & _ & A & _).
  destruct (epoch_begin_facts st) as (_ & O0 & _).
  destruct (epoch_end_events_facts s1 epoch bleu_test ratio) as (_ & _ & F).
  exists (e1 ++ epoch_end_events s1 epoch bleu_test ratio), bleu_test.
  split; [rewrite O2, O1, O0, <- app_assoc; reflexivity|].
  split; [rewrite N; exact Hr|].
  rewrite filter_app, S1, F, N, A. reflexivity.
Qed.

Lemma epoch_step_metrics (args : Args) (end_token beg_token : Tok)
    (test_data : list PhrasePair) (epoch : nat) (st st' : Vars) :
  epoch_step args end_token beg_token test_data epoch st = Ok st' ->
  exists bleu_test,
    test_metrics (out st') = test_metrics (out st) ++ [bleu_test] /\
    best_bleu st'
    = (if improves (best_bleu st) bleu_test then Some bleu_test else best_bleu st).
Proof.
  intros H.
  destruct (epoch_step_inv _ _ _ _ _ _ _ H) as (s1 & Hloop & Hend).
  destruct (batch_loop_quiet _ _ _ _ _ _ Hloop) as (e1 & O1 & M1 & _).
  destruct (batch_loop_rel _ _ _ _ _ _ Hloop) as (B1 & _).
  destruct (epoch_end_out _ _ _ _ _ Hend) as (bleu_test & ratio & _ & _ & _ & B2 & O2).
  destruct (epoch_begin_facts st) as (_ & O0 & B0 & _).
  destruct (epoch_end_events_facts s1 epoch bleu_test ratio) as (M2 & _).
  exists bleu_test. split.
  - rewrite O2, O1, O0, !test_metrics_app, M1, M2, app_nil_r. reflexivity.
  - rewrite B2, B1, B0. reflexivity.
Qed.

Lemma tracker_step (st st' : Vars) (bleu_test : Q) :
  tracker_is_max st ->
  test_metrics (out st') = test_metrics (out st) ++ [bleu_test] ->
  best_bleu st'
  = (if improves (best_bleu st) bleu_test then Some bleu_test else best_bleu st) ->
  tracker_is_max st'.
Proof.
  unfold tracker_is_max. intros Hmax Hm Hb. rewrite Hb, Hm.
  destruct (best_bleu st) as [b|] eqn:Eb; simpl.
  - destruct Hmax as [Hin Hle].
    destruct (Qgtb_cases bleu_test b) as [[E L]|[E L]]; rewrite E.
    + split; [apply in_or_app; right; left; reflexivity|].
      intros x Hx. apply in_app_or in Hx. destruct Hx as [Hx|[<-|[]]].
      * eapply Qle_trans; [apply Hle, Hx|apply Qlt_le_weak, L].
      * apply Qle_refl.
    + split; [apply in_or_app; left; exact Hin|].
      intros x Hx. apply in_app_or in Hx. destruct Hx as [Hx|[<-|[]]].
      * apply Hle, Hx.
      * exact L.
  - rewrite Hmax. simpl. split; [left; reflexivity|].
    intros x [<-|[]]. apply Qle_refl.
Qed.

(** X10.  Over any number of epochs the tracker stays the largest test metric
    written so far: starting from a state where it is (the initial state,
    with no metric written and the tracker unset, is one), after [n] more
    epochs [n] more test metrics have been written and [best_bleu] is the
    largest of all of them. *)
Theorem best_bleu_is_running_max (args : Args) (end_token beg_token : Tok)
    (test_data : list PhrasePair) (n : nat) (st st' : Vars) :
  tracker_is_max st ->
  run_epochs args end_token beg_token test_data n st = Ok st' ->
  tracker_is_max st' /\
  length (test_metrics (out st')) = length (test_metrics (out st)) + n.
Proof.
  intros Hmax H.
  assert (Hgen : forall epochs a b,
             tracker_is_max a ->
             for_each (epoch_step args end_token beg_token test_data) epochs a = Ok b ->
             tracker_is_max b /\
             length (test_metrics (out b)) = length (test_metrics (out a)) + length epochs);
    [|destruct (Hgen (seq 0 n) st st' Hmax H) as [H1 H2]; rewrite length_seq in H2;
      split; assumption].
  clear. induction epochs as [|epoch epochs IH]; intros st st' Hmax H;
    cbn [for_each] in H.
  - injection H as <-. split; [exact Hmax|simpl; lia].
  - destruct (epoch_step args end_token beg_token test_data epoch st) as [s1|e] eqn:E1;
      cbn [bind] in H; [|discriminate H].
    destruct (epoch_step_metrics _ _ _ _ _ _ _ E1) as (bleu_test & Hm & Hb).
    destruct (IH s1 st' (tracker_step st s1 bleu_test Hmax Hm Hb) H) as [Hmax' Hlen].
    split; [exact Hmax'|]. rewrite Hlen, Hm, length_app. simpl. lia.
Qed.

(** ** Training without samples *)

Lemma example_step_idle (args : Args) (end_token : Tok) (enc : Encoded) (beg : Embedding)
    (output_batch : list (list Phrase)) (item : nat * Phrase) (st st' : Vars) :
  (samples args <= 0)%Z ->
  example_step args end_token enc beg output_batch item st = Ok st' ->
  records st st' [].
Proof.
  intros Hs H. destruct (example_step_ok_refs _ _ _ _ _ _ _ _ H) as [refs Hrefs].
  destruct item as [idx inp_idx]. simpl in Hrefs.
  destruct (example_step_cases args end_token enc beg output_batch idx inp_idx refs st Hrefs)
    as (st2 & E & _ & _ & [Hc|Hc]); rewrite E in H; injection H as <-.
  - apply Hc.
  - destruct Hc as (_ & new & R & L & _).
    replace (Z.to_nat (samples args)) with 0 in L by lia.
    destruct new; [exact R|discriminate L].
Qed.

Lemma batch_step_idle (args : Args) (end_token beg_token : Tok)
    (batch : list PhrasePair) (st st' : Vars) :
  (samples args <= 0)%Z ->
  batch_step args end_token beg_token batch st = Ok st' ->
  net st' = net st /\ optimiser st' = optimiser st /\
  exists evs, out st' = out st ++ evs /\ Forall (fun e => is_dialogue_log e = true) evs.
Proof.
  intros Hs. unfold batch_step.
  destruct (batch_collect args end_token beg_token batch st) as [st1|e] eqn:E1;
    [|discriminate].
  simpl bind. intros E2.
  destruct (batch_collect_facts _ _ _ _ _ _ E1) as (N & O & _ & _ & (A1 & _) & _ & D).
  assert (Hrec : recorded st1 = []).
  { unfold batch_collect in E1.
    destruct (pack_batch_no_out batch
                (net (set_grads (zero_grad (grads (set_batch_idx (batch_idx st + 1) st)))
                        (set_batch_idx (batch_idx st + 1) st))))
      as [[input_seq input_batch] output_batch].
    revert E1.
    match goal with
    | |- for_each ?body ?items ?s0 = Ok st1 -> _ =>
        intros E1;
        assert (R : records s0 st1 []);
        [revert E1; apply (for_each_rel body (fun a b => records a b []))|]
    end.
    - apply records_nil.
    - intros a b c R1 R2. apply (records_trans a b c [] [] R1 R2).
    - intros x a b Hx. apply (example_step_idle _ _ _ _ _ _ _ _ Hs Hx).
    - destruct R as (_ & R1 & _). rewrite R1. destruct st; reflexivity. }
  rewrite (batch_update_empty st1) in E2 by (rewrite A1, Hrec; reflexivity).
  injection E2 as <-. repeat split; assumption.
Qed.

(** X11.  With [--samples] at 0 or below no trajectory is ever sampled, so no
    batch reaches the optimiser: over any number of epochs the parameters
    and the optimiser state stay what they were, nothing is tracked, and
    every test metric written is the metric of the initial parameters. *)
Theorem no_samples_no_training (args : Args) (end_token beg_token : Tok)
    (test_data : list PhrasePair) (n : nat) (st st' : Vars) :
  (samples args <= 0)%Z ->
  run_epochs args end_token beg_token test_data n st = Ok st' ->
  net st' = net st /\ optimiser st' = optimiser st /\
  exists evs,
    out st' = out st ++ evs /\ filter is_track evs = [] /\
    forall x, In x (test_metrics evs) -> run_test test_data (net st) end_token = Ok x.
Proof.
  intros Hs. unfold run_epochs.
  apply (for_each_rel (epoch_step args end_token beg_token test_data)
           (fun a b =>
              net b = net a /\ optimiser b = optimiser a /\
              exists evs,
                out b = out a ++ evs /\ filter is_track evs = [] /\
                forall x, In x (test_metrics evs) ->
                          run_test test_data (net a) end_token = Ok x)).
  - intros a. repeat split. exists []. rewrite app_nil_r. repeat split.
    intros x [].
  - intros a b c (N1 & O1 & (e1 & X1 & T1 & M1)) (N2 & O2 & (e2 & X2 & T2 & M2)).
    split; [congruence|]. split; [congruence|].
    exists (e1 ++ e2). split; [rewrite X2, X1, app_assoc; reflexivity|].
    split; [rewrite filter_app, T1, T2; reflexivity|].
    intros x Hx. rewrite test_metrics_app in Hx. apply in_app_or in Hx.
    destruct Hx as [Hx|Hx]; [apply M1, Hx|]. rewrite <- N1. apply M2, Hx.
  - intros epoch a b H.
    destruct (epoch_step_inv _ _ _ _ _ _ _ H) as (s1 & Hloop & Hend).
    assert (Hb : net s1 = net (epoch_begin a) /\ optimiser s1 = optimiser (epoch_begin a) /\
                 exists evs, out s1 = out (epoch_begin a) ++ evs /\
                             Forall (fun e => is_dialogue_log e = true) evs).
    { revert Hloop.
      apply (for_each_rel (batch_step args end_token beg_token)
               (fun u v =>
                  net v = net u /\ optimiser v = optimiser u /\
                  exists evs, out v = out u ++ evs /\
                              Forall (fun e => is_dialogue_log e = true) evs)).
      - intros u. repeat split. exists []. rewrite app_nil_r. split; [reflexivity|constructor].
      - intros u v w (N1 & O1 & (e1 & X1 & D1)) (N2 & O2 & (e2 & X2 & D2)).
        split; [congruence|]. split; [congruence|].
        exists (e1 ++ e2). split; [rewrite X2, X1, app_assoc; reflexivity|].
        apply Forall_app. split; assumption.
      - intros x u v Hx. apply (batch_step_idle _ _ _ _ _ _ Hs Hx). }
    destruct Hb as (N1 & O1 & (e1 & X1 & D1)).
    destruct (epoch_end_out _ _ _ _ _ Hend) as (bleu_test & ratio & Hr & N2 & O2 & _ & X2).
    destruct (epoch_begin_facts a) as (_ & X0 & _ & N0).
    destruct (epoch_begin_counters a) as (_ & _ & _ & _ & _ & O0).
    destruct (epoch_end_events_facts s1 epoch bleu_test ratio) as (M & T & _).
    split; [congruence|]. split; [congruence|].
    exists (e1 ++ epoch_end_events s1 epoch bleu_test ratio).
    split; [rewrite X2, X1, X0, <- app_assoc; reflexivity|].
    split.
    + rewrite filter_app, T, app_nil_r.
      apply (only_filter is_track is_dialogue_log); [exact dialogue_not_track|exact D1].
    + intros x Hx. rewrite test_metrics_app, M in Hx.
      rewrite (test_metrics_none is_dialogue_log e1) in Hx; [|reflexivity|exact D1].
      destruct Hx as [<-|[]]. rewrite <- N0, <- N1. exact Hr.
Qed.

(** ** Values of the loss and of the test metric *)

Lemma tied_advantage (t : Trajectory) :
  Qeq_bool (t_reward t) (t_baseline t) = true -> Q2R (advantage t) = 0%R.
Proof.
  intros H. apply Qeq_bool_iff in H. unfold advantage, Qminus.
  rewrite Q2R_plus, Q2R_opp, (Qeq_eqR _ _ H). ring.
Qed.

Lemma tied_terms (trajs : list Trajectory) :
  all_tied trajs = true ->
  Forall (fun x => x = 0%R) (concat (map weighted_log_probs trajs)).
Proof.
  unfold all_tied. induction trajs as [|t trajs IH]; simpl; intros H; [constructor|].
  apply andb_true_iff in H. destruct H as [Ht H].
  apply Forall_app. split; [|apply IH, H].
  unfold weighted_log_probs. rewrite (tied_advantage t Ht).
  apply Forall_forall. intros x Hx. apply in_map_iff in Hx.
  destruct Hx as (p & <- & _). ring.
Qed.

Lemma Rsum_zeros (l : list R) : Forall (fun x => x = 0%R) l -> Rsum l = 0%R.
Proof.
  intros H. induction H as [|x l Hx _ IH]; simpl; [reflexivity|].
  rewrite Hx, IH. ring.
Qed.

(** X12.  When every sampled trajectory of a batch scores exactly the greedy
    reward of its example, the loss of the batch is 0, whatever the
    distributions and the tokens are. *)
Theorem tied_samples_zero_loss (args : Args) (end_token beg_token : Tok)
    (batch : list PhrasePair) (V : nat) (st st1 : Vars) :
  batch_collect args end_token beg_token batch st = Ok st1 ->
  net_actions st1 <> [] ->
  forallb (aligned V) (recorded st1) = true ->
  all_tied (recorded st1) = true ->
  loss_policy (net_policies st1) (net_actions st1) (net_advantages st1) = Ok (Real 0).
Proof.
  intros H Hne Hal Htie.
  destruct (batch_collect_facts _ _ _ _ _ _ H) as (_ & _ & _ & _ & (A1 & A2 & A3) & _).
  assert (Hrec : recorded st1 <> []).
  { intros E. apply Hne. rewrite A2, E. reflexivity. }
  rewrite A1, A2, A3, (loss_policy_flat V _ Hrec Hal).
  f_equal. unfold mean_loss.
  rewrite <- (weighted_concat V _ Hal).
  assert (Hterms := tied_terms _ Htie). rewrite <- (weighted_concat V _ Hal) in Hterms.
  destruct (map (fun p => (fst p * snd p)%R)
              (combine (FloatTensor (concat (map advantages (recorded st1))))
                 (map (fun p => token_log_prob (fst p) (snd p))
                    (combine (concat (map t_logits (recorded st1)))
                       (concat (map t_tokens (recorded st1))))))) as [|x l] eqn:E.
  - exfalso. apply Hne. rewrite A2.
    apply (f_equal (@length R)) in E.
    rewrite length_map, length_combine, length_map, length_combine in E.
    unfold FloatTensor in E. rewrite length_map, length_concat_advantages in E.
    destruct (aligned_concat V _ Hal) as [Hl _]. rewrite Hl, !Nat.min_id in E.
    simpl in E. apply length_zero_iff_nil. exact E.
  - rewrite (Rsum_zeros _ Hterms). f_equal. unfold Rdiv. ring.
Qed.



End TrainerMore.

(** ** The further properties on the small model *)

Module ToyMoreFacts.

Import Toy ToyRuns ToyMore.

#[local] Existing Instance model.


Lemma rev_emb_dict_last_wins_witness :
  dict_get Nat.eqb 1 (rev_emb_dict ([("hi"%string, 1)] ++ ("hello"%string, 1)
                                      :: [("#END"%string, 2)]))
  = Some "hello"%string /\
  forall w', In (w', 1) [("hi"%string, 1)] -> w' <> "hello"%string ->
    dict_get Nat.eqb 1 (rev_emb_dict ([("hi"%string, 1)] ++ ("hello"%string, 1)
                                        :: [("#END"%string, 2)]))
    <> Some w'.
Proof.
  apply (rev_emb_dict_last_wins [("hi"%string, 1)] [("#END"%string, 2)] "hello"%string 1).
  simpl. lia.
Defined.

Lemma rev_emb_dict_round_trip_witness :
  dict_get Nat.eqb 1 (rev_emb_dict emb_words) = Some "hello"%string
  <-> In ("hello"%string, 1) emb_words.
Proof.
  apply (rev_emb_dict_round_trip emb_words).
  repeat constructor; simpl; lia.
Defined.

Lemma batch_accounting_witness :
  exists k,
    k <= length (input_batch_of batch_abc st0) /\
    total_samples st1 = total_samples st0 + length (input_batch_of batch_abc st0) /\
    skipped_samples st1 = skipped_samples st0 + k /\
    length (net_policies st1)
    = Z.to_nat (samples args) * (length (input_batch_of batch_abc st0) - k) /\
    (disable_skip args = true -> k = 0).
Proof.
  apply (batch_accounting (C:=model) args end_token beg_token batch_abc st0 st1).
  vm_compute. reflexivity.
Defined.

Lemma epoch_accounting_witness :
  0 < total_samples st_epoch /\
  skipped_samples st_epoch <= total_samples st_epoch /\
  length (bleus_argmax st_epoch) = total_samples st_epoch /\
  length (bleus_sample st_epoch)
  = Z.to_nat (samples args) * (total_samples st_epoch - skipped_samples st_epoch) /\
  let ratio :=
    Qdiv (inject_Z (Z.of_nat (skipped_samples st_epoch)))
      (inject_Z (Z.of_nat (total_samples st_epoch))) in
  In (AddScalar "skipped_samples" (Some ratio) (batch_idx st_epoch)) (out st_epoch) /\
  Qle 0 ratio /\ Qle ratio 1.
Proof.
  apply (epoch_accounting (C:=model) args end_token beg_token test_data 0 st0 st_epoch).
  vm_compute. reflexivity.
Defined.

Lemma batch_idx_counts_batches_witness :
  batch_idx st_epoch
  = batch_idx st0 + length (iterate_batches (train_data (epoch_begin st0)) BATCH_SIZE) /\
  In (AddScalar "epoch" (Some (inject_Z (Z.of_nat (batch_idx st_epoch)))) 0) (out st_epoch).
Proof.
  apply (batch_idx_counts_batches (C:=model) args end_token beg_token test_data 0 st0
           st_epoch).
  vm_compute. reflexivity.
Defined.

(** Without any training phrase the first epoch ends in [ZeroDivisionError]. *)
Lemma epoch_needs_examples_witness :
  epoch_step args end_token beg_token test_data 0 st_nodata = Raise ZeroDivisionError.
Proof.
  apply (proj2 (proj2 (epoch_needs_examples (C:=model) args end_token beg_token
                         test_data 0)) st_nodata).
  vm_compute. reflexivity.
Defined.

Lemma batch_collect_index_error_witness :
  exists s, batch_collect args end_token beg_token batch_abc st0 = Ok s.
Proof.
  apply (proj1 (batch_collect_index_error (C:=model) args end_token beg_token
                  batch_abc st0)).
  vm_compute. lia.
Defined.

Lemma update_uses_fresh_gradients_witness :
  exists st2,
    batch_step args end_token beg_token batch_abc st0 = Ok st2 /\
    (optimiser st2, net st2)
    = adam_step (optimiser st0) (net st0)
        (backward (net st0) (net_policies st1) (net_actions st1) (net_advantages st1)
           (zero_grad (grads st0))).
Proof.
  apply (update_uses_fresh_gradients (C:=model) args end_token beg_token batch_abc VOCAB
           st0 st1).
  - vm_compute. reflexivity.
  - vm_compute. discriminate.
  - vm_compute. reflexivity.
Defined.

Lemma periodic_checkpoint_witness :
  exists evs bleu_test,
    out st_epoch = out st0 ++ evs /\
    run_test test_data (net st_epoch) end_token = Ok bleu_test /\
    filter is_epoch_save evs
    = (if Nat.eqb (0 mod 10) 0
       then [Save (net st_epoch) (EpochFile 0 (np_mean (bleus_argmax st_epoch)) bleu_test)]
       else []).
Proof.
  apply (periodic_checkpoint (C:=model) args end_token beg_token test_data 0 st0 st_epoch).
  vm_compute. reflexivity.
Defined.

Lemma best_bleu_is_running_max_witness :
  tracker_is_max st_two /\
  length (test_metrics (out st_two)) = length (test_metrics (out st0)) + 2.
Proof.
  apply (best_bleu_is_running_max (C:=model) args end_token beg_token test_data 2 st0
           st_two).
  - reflexivity.
  - vm_compute. reflexivity.
Defined.

Lemma no_samples_no_training_witness :
  net st_idle = net st0 /\ optimiser st_idle = optimiser st0 /\
  exists evs,
    out st_idle = out st0 ++ evs /\ filter is_track evs = [] /\
    forall x, In x (test_metrics evs) -> run_test test_data (net st0) end_token = Ok x.
Proof.
  apply (no_samples_no_training (C:=model) args_nosample end_token beg_token test_data 2
           st0 st_idle).
  - simpl. lia.
  - vm_compute. reflexivity.
Defined.

Lemma tied_samples_zero_loss_witness :
  loss_policy (net_policies st_tie) (net_actions st_tie) (net_advantages st_tie)
  = Ok (Real 0).
Proof.
  apply (tied_samples_zero_loss (C:=model) args_one end_token beg_token [pair_b] VOCAB
           st0 st_tie).
  - vm_compute. reflexivity.
  - vm_compute. discriminate.
  - vm_compute. reflexivity.
  - vm_compute. reflexivity.
Defined.


End ToyMoreFacts.
